(** * Mining-Automation: the optimization selector and the process supervisor

    A shallow embedding of [automate.go]: the persisted tables the program
    reads and writes, the ranking query of [getBestSoftwareAlgo], the launch
    specification built by [changeAlgoGetParams], the heartbeat of [checkIn],
    and the body of the perpetual loop of [main] with its kill-and-retry
    sequence.

    Conventions.
    - [uint64] keys and [uint8] flags are [N]; the Go [int] counters are [Z]
      with the 64-bit wrap-around written out ([Go.wrap_int]).
    - SQL numeric columns are rationals ([Q]); the arithmetic of the SQL
      engine on them (rounding, the order of rows with equal keys) is not
      part of the program, and no property below is about it.
    - A nullable column or a Go pointer field is an [option].
    - Everything outside the program (the operating system, the clock, the
      pool-URL generator, the commit of a transaction) is an oracle of the
      environment [Env] that answers from the history of events so far. *)

From Stdlib Require Import List String Ascii Bool ZArith NArith QArith Lia.
From Stdlib Require Import Sorting.Permutation.
Import ListNotations.

Set Implicit Arguments.

Local Open Scope string_scope.
Local Open Scope list_scope.

(** ** Persisted schema *)

(** The models live in the shared package; the fields below are the ones the
    program reads, writes, or names in its SQL, and the name by which
    [VerifyMiner] looks the miner up. *)

Record Miner := mkMiner {
  miner_ID : N;
  miner_Name : string;
  MinerSoftwareAlgoID : N;
  SendEmail : option bool;          (* *bool *)
  OfflineNoticeSent : bool;
  LastCheckIn : Z                   (* time.Time, as an instant *)
}.

Record Algorithm := mkAlgorithm {
  algo_ID : N;
  algo_Name : string
}.

Record MinerSoftware := mkMinerSoftware {
  soft_ID : N;
  soft_Name : string;
  AlgoParam : string;
  PoolParam : string;
  WalletParam : string;
  PasswordParam : string;
  OtherParams : string
}.

Record MinerMinerSoftware := mkMinerMinerSoftware {
  mms_MinerID : N;
  mms_MinerSoftwareID : N;
  FilePath : string
}.

Record MinerSoftwareAlgos := mkMinerSoftwareAlgos {
  msa_ID : N;
  msa_MinerSoftwareID : N;
  msa_AlgorithmID : N;
  msa_Name : string;
  ExtraParams : string;
  do_not_use : option bool          (* nullable column *)
}.

Record MinerStats := mkMinerStats {
  stat_id : N;
  stat_miner_id : N;
  stat_miner_software_id : N;
  stat_algorithm_id : N;
  work_per_second : Q;
  stat_mh_factor : Q
}.

Record Pool := mkPool {
  pool_id : N;
  pool_algorithm_id : N;
  pool_mh_factor : Q
}.

Record PoolStats := mkPoolStats {
  pstat_id : N;
  pstat_pool_id : N;
  coin_price_id : N;
  profit_estimate : Q;
  profit_actual24_hours : Q
}.

Record CoinPrice := mkCoinPrice {
  cp_id : N;
  price : Q
}.

Record DB := mkDB {
  miners : list Miner;
  algorithms : list Algorithm;
  miner_softwares : list MinerSoftware;
  miner_miner_softwares : list MinerMinerSoftware;
  miner_software_algos : list MinerSoftwareAlgos;
  miner_stats : list MinerStats;
  pools : list Pool;
  pool_stats : list PoolStats;
  coin_prices : list CoinPrice
}.

(** *** Zero values and Go's [==] on structs *)

Definition Miner_zero : Miner := mkMiner 0 EmptyString 0 None false 0.
Definition Algorithm_zero : Algorithm := mkAlgorithm 0 EmptyString.
Definition MinerSoftware_zero : MinerSoftware :=
  mkMinerSoftware 0 EmptyString EmptyString EmptyString EmptyString EmptyString
    EmptyString.
Definition MinerMinerSoftware_zero : MinerMinerSoftware :=
  mkMinerMinerSoftware 0 0 EmptyString.
Definition MinerSoftwareAlgos_zero : MinerSoftwareAlgos :=
  mkMinerSoftwareAlgos 0 0 0 EmptyString EmptyString None.

Definition option_bool_dec (a b : option bool) : {a = b} + {a <> b}.
Proof. decide equality. apply bool_dec. Defined.

Definition Miner_eq_dec (a b : Miner) : {a = b} + {a <> b}.
Proof.
  decide equality;
    auto using N.eq_dec, Z.eq_dec, string_dec, bool_dec, option_bool_dec.
Defined.

Definition Algorithm_eq_dec (a b : Algorithm) : {a = b} + {a <> b}.
Proof. decide equality; auto using N.eq_dec, string_dec. Defined.

Definition MinerSoftware_eq_dec (a b : MinerSoftware) : {a = b} + {a <> b}.
Proof. decide equality; auto using N.eq_dec, string_dec. Defined.

Definition MinerMinerSoftware_eq_dec (a b : MinerMinerSoftware) : {a = b} + {a <> b}.
Proof. decide equality; auto using N.eq_dec, string_dec. Defined.

Definition MinerSoftwareAlgos_eq_dec (a b : MinerSoftwareAlgos) : {a = b} + {a <> b}.
Proof. decide equality; auto using N.eq_dec, string_dec, option_bool_dec. Defined.

(** ** Outcomes of a call *)

(** Each constructor of [FatalError] is one [log.Fatal]/[log.Fatalf] site. *)
Inductive FatalError :=
| MinerNotFound            (* "Unable to locate this miner in the database" *)
| BadSoftwareOrAlgoLink    (* "Miner software algo has a bad software or algo link" *)
| NoFilePath               (* "No file path found for miner software" *)
| CommitFailed             (* "Issue committing changes." *)
| NoViableOptimization     (* "Could not determine an optimization for this miner." *)
| StartFailed              (* "Unable to start mining software." *)
| Unkillable               (* "Unable to close inferior process after 1,000 attempts." *)
| ExternalExit.            (* a fatal exit taken inside a collaborator *)

Inductive RuntimePanic :=
| NilPointerDereference
| IntegerDivideByZero
| ExternalPanic.           (* a panic raised inside a collaborator *)

(** [Fatal] exits the program on the spot ([os.Exit(1)], no deferred call
    runs); [Panic] unwinds through the deferred calls; [OutOfFuel] only marks
    a loop model that ran out of its iteration budget. *)
Inductive Outcome (A : Type) : Type :=
| Ret (a : A)
| Fatal (e : FatalError)
| Panic (p : RuntimePanic)
| OutOfFuel.

Arguments Ret {A} a.
Arguments Fatal {A} e.
Arguments Panic {A} p.
Arguments OutOfFuel {A}.

(** [Find(&dest)] and [First(dest)] scan the first row of the result into
    [dest]; with no row, [dest] stays as it was. *)
Definition Find (A : Type) (dest : A) (rows : list A) : A := hd dest rows.

(** ** 4.1 The optimization selector: [getBestSoftwareAlgo] *)

Module Selector.

Local Open Scope N_scope.

(** [for x in l ; k] is the list comprehension used to write joins. *)
Local Notation "'for' x 'in' l ; k" := (flat_map (fun x => k) l)
  (at level 10, x name, l at level 100, k at level 200).
Local Notation "'on' c ; k" := (if c then k else [])
  (at level 10, c at level 100, k at level 200).

(** [GROUP BY]: one representative per group, in order of first appearance. *)
Fixpoint group_by (A : Type) (same : A -> A -> bool) (l : list A) : list A :=
  match l with
  | [] => []
  | x :: r => x :: filter (fun y => negb (same x y)) (group_by same r)
  end.

Definition Qsum (l : list Q) : Q := fold_right Qplus 0%Q l.

(** [AVG(e)] over a non-empty group. *)
Definition AVG (l : list Q) : Q := (Qsum l / inject_Z (Z.of_nat (List.length l)))%Q.

(** [MAX(id)] over a group. *)
Definition MAX (l : list N) : N := fold_right N.max 0 l.

(** Row of [subAvgWork]. *)
Record AverageStat := mkAverageStat {
  avg_miner_id : N;
  avg_miner_software_id : N;
  avg_algorithm_id : N;
  average_work : Q;
  avg_mh_factor : Q
}.

(** Row of [subLatestStat]. *)
Record LatestStat := mkLatestStat {
  ls_miner_id : N;
  ls_miner_software_id : N;
  ls_algorithm_id : N;
  latest_stat_id : N
}.

(** Row of [subLatestPoolStat]. *)
Record LatestPoolStat := mkLatestPoolStat {
  lps_id : N;
  lps_pool_id : N
}.

Definition same_triple (a b : MinerStats) : bool :=
  (stat_miner_id a =? stat_miner_id b) &&
  (stat_miner_software_id a =? stat_miner_software_id b) &&
  (stat_algorithm_id a =? stat_algorithm_id b).

Definition same_triple_factor (a b : MinerStats) : bool :=
  same_triple a b && Qeq_bool (stat_mh_factor a) (stat_mh_factor b).

Definition subAvgWork (db : DB) (minerID : N) : list AverageStat :=
  let t := filter (fun s => stat_miner_id s =? minerID) (miner_stats db) in
  map (fun g =>
         mkAverageStat (stat_miner_id g) (stat_miner_software_id g)
           (stat_algorithm_id g)
           (AVG (map work_per_second (filter (same_triple_factor g) t)))
           (stat_mh_factor g))
      (group_by same_triple_factor t).

Definition subLatestStat (db : DB) (minerID : N) : list LatestStat :=
  let t := filter (fun s => stat_miner_id s =? minerID) (miner_stats db) in
  map (fun g =>
         mkLatestStat (stat_miner_id g) (stat_miner_software_id g)
           (stat_algorithm_id g)
           (MAX (map stat_id (filter (same_triple g) t))))
      (group_by same_triple t).

Definition subLatestPoolStat (db : DB) : list LatestPoolStat :=
  map (fun g =>
         mkLatestPoolStat
           (MAX (map pstat_id
                   (filter (fun s => pstat_pool_id s =? pstat_pool_id g)
                      (pool_stats db))))
           (pstat_pool_id g))
      (group_by (fun a b => pstat_pool_id a =? pstat_pool_id b) (pool_stats db)).

(** A row of the big join: the selected [miner_software_algos.*] together
    with the columns the [ORDER BY] expression reads. *)
Record JoinRow := mkJoinRow {
  combination : MinerSoftwareAlgos;
  row_price : Q;
  row_profit_estimate : Q;
  row_profit_actual24_hours : Q;
  row_average_work : Q;
  row_stat_mh_factor : Q;           (* average_stat.mh_factor *)
  row_pool_mh_factor : Q            (* pools.mh_factor *)
}.

(** [do_not_use IS NULL OR do_not_use = FALSE] *)
Definition eligible (c : MinerSoftwareAlgos) : bool :=
  match do_not_use c with
  | None => true
  | Some b => negb b
  end.

(** The [FROM ... INNER JOIN ... WHERE] part of the query, one comprehension
    per [Joins] call, in the order of the source. *)
Definition joined_rows (db : DB) (minerID : N) : list JoinRow :=
  for m in miners db;
  for ls in filter (fun ls => ls_miner_id ls =? miner_ID m) (subLatestStat db minerID);
  for st in filter (fun st => stat_id st =? latest_stat_id ls) (miner_stats db);
  for sw in filter (fun sw => ls_miner_software_id ls =? soft_ID sw) (miner_softwares db);
  for al in filter (fun al => algo_ID al =? ls_algorithm_id ls) (algorithms db);
  for c in filter (fun c => (msa_AlgorithmID c =? algo_ID al) &&
                            (msa_MinerSoftwareID c =? soft_ID sw))
             (miner_software_algos db);
  for p in filter (fun p => pool_algorithm_id p =? algo_ID al) (pools db);
  for lps in filter (fun lps => lps_pool_id lps =? pool_id p) (subLatestPoolStat db);
  for ps in filter (fun ps => pstat_id ps =? lps_id lps) (pool_stats db);
  for cp in filter (fun cp => coin_price_id ps =? cp_id cp) (coin_prices db);
  for av in filter (fun av => (avg_miner_id av =? miner_ID m) &&
                              (avg_miner_software_id av =? soft_ID sw) &&
                              (avg_algorithm_id av =? algo_ID al))
              (subAvgWork db minerID);
  on (miner_ID m =? minerID) && eligible c;
  [mkJoinRow c (price cp) (profit_estimate ps) (profit_actual24_hours ps)
     (average_work av) (avg_mh_factor av) (pool_mh_factor p)].

(** The [ORDER BY] expression, as the source writes it. The SQL engine
    evaluates it in its own numeric arithmetic, which rounds and which fails
    or gives [NULL] on a zero divisor; the rationals below stand for the
    expression, not for the value an engine computes, and the properties
    proved below do not depend on how an engine rounds it. *)
Definition orderLogic (useEstimates : N) (r : JoinRow) : Q :=
  if useEstimates =? 0 then
    (row_price r * (1 # 1000) * row_profit_actual24_hours r *
       (row_stat_mh_factor r / row_pool_mh_factor r) * row_average_work r)%Q
  else
    (row_price r * row_profit_estimate r *
       (row_stat_mh_factor r / row_pool_mh_factor r) * row_average_work r)%Q.

(** [ORDER BY key DESC]: one way of ordering the rows, an insertion sort that
    keeps rows of equal keys in the order of the join. An engine compares the
    keys it computed and leaves the order of equal keys open, so which row
    comes first is the engine's choice among the rows of the join; the
    properties of the selector below are about the rows of the join and do
    not depend on which of them comes first. *)
Fixpoint insert_desc (A : Type) (key : A -> Q) (x : A) (l : list A) : list A :=
  match l with
  | [] => [x]
  | y :: r => if Qle_bool (key y) (key x) then x :: y :: r
              else y :: insert_desc key x r
  end.

Definition order_by_desc (A : Type) (key : A -> Q) (l : list A) : list A :=
  fold_right (insert_desc key) [] l.

(** The rows the query hands back: ordered, then [LIMIT 1]. *)
Definition query (db : DB) (minerID : N) (useEstimates : N) : list JoinRow :=
  firstn 1 (order_by_desc (orderLogic useEstimates) (joined_rows db minerID)).

Definition getBestSoftwareAlgo (db : DB) (minerID : N) (useEstimates : N)
  : Outcome MinerSoftwareAlgos :=
  let bestMinerSoftwareAlgo :=
    Find MinerSoftwareAlgos_zero (map combination (query db minerID useEstimates)) in
  if MinerSoftwareAlgos_eq_dec MinerSoftwareAlgos_zero bestMinerSoftwareAlgo
  then Fatal NoViableOptimization
  else Ret bestMinerSoftwareAlgo.

End Selector.

(** ** Go primitives *)

Module Go.

Local Open Scope Z_scope.

(** Two's-complement wrap-around of a [w]-bit signed integer. *)
Definition wrap (w : Z) (z : Z) : Z := (z + 2 ^ (w - 1)) mod 2 ^ w - 2 ^ (w - 1).

Definition wrap_int (z : Z) : Z := wrap 64 z.
Definition int32 (z : Z) : Z := wrap 32 z.
Definition int_add (a b : Z) : Z := wrap_int (a + b).

(** [a % b] on [int]: truncated remainder; a zero divisor is a run-time panic. *)
Definition int_rem (a b : Z) : Outcome Z :=
  if b =? 0 then Panic IntegerDivideByZero else Ret (Z.rem a b).

(** [len(s)] of a string, in bytes. *)
Definition len (s : string) : Z := Z.of_nat (String.length s).

(** Cut [s] at every byte that satisfies [sep]; [n] separators give [n+1]
    pieces, empty ones included. *)
Fixpoint split_when (sep : ascii -> bool) (s : string) : list string :=
  match s with
  | EmptyString => [EmptyString]
  | String c r =>
      if sep c then EmptyString :: split_when sep r
      else match split_when sep r with
           | [] => [String c EmptyString]
           | w :: ws => String c w :: ws
           end
  end.

(** [strings.Split(s, sep)] for a one-byte separator. *)
Definition Split (s : string) (sep : ascii) : list string :=
  split_when (Ascii.eqb sep) s.

End Go.

(** The specification's "split on whitespace": the maximal runs of
    non-whitespace bytes, in order. *)
Definition is_whitespace (c : ascii) : bool :=
  let n := nat_of_ascii c in
  (Nat.eqb n 32 || Nat.eqb n 9 || Nat.eqb n 10 || Nat.eqb n 11 ||
   Nat.eqb n 12 || Nat.eqb n 13)%bool.

Definition spec_whitespace_split (s : string) : list string :=
  filter (fun w => negb (String.eqb w EmptyString)) (Go.split_when is_whitespace s).

(** ** Configuration (Automate.hcl) *)

(** The database connectivity options are consumed by [Connect] only and are
    left out. *)
Record Config := mkConfig {
  MinerName : string;
  PoolPassword : string;
  Wallet : string;
  UseEstimates : N;
  RebootOnFailure : N;
  OptimizationCheckTime : Z;
  EmailServer : string;
  EmailPort : string;
  EmailUser : string;
  EmailPassword : string;
  EmailFrom : string;
  EmailTo : string
}.

(** ** The world outside the program *)

(** What the program does to the outside, in the order it does it. *)
Inductive Event :=
| EBegin                                   (* db.Begin() *)
| ETxSave (m : Miner)                      (* tx.Save(miner) *)
| ECommit (ok : bool)                      (* tx.Commit() *)
| ERollback                                (* tx.Rollback() *)
| EDbSave (m : Miner)                      (* db.Save(miner), on the handle itself *)
| ESelect                                  (* the query of getBestSoftwareAlgo *)
| EKill (pid : Z)                          (* proc.Kill() *)
| EWait (pid : Z)                          (* proc.Wait() *)
| ESleep (seconds : Z)                     (* time.Sleep *)
| EPidExists (pid : Z) (alive : bool)      (* process.PidExists *)
| EStartProcess (path : string) (args : list string) (started : option Z)
| ESendEmail (subject : string).

(** How a collaborator's call can end. *)
Inductive Reply (A : Type) : Type :=
| Returns (a : A)
| Panics
| Exits.

Arguments Returns {A} a.
Arguments Panics {A}.
Arguments Exits {A}.

(** The environment: every answer is a function of the history so far, so a
    theorem quantified over [Env] holds for every behaviour of the operating
    system, the clock and the collaborators. *)
Record Env := mkEnv {
  PidExists : list Event -> Z -> bool;
  StartProcess : list Event -> string -> list string -> option Z;
  Now : list Event -> Z;
  GeneratePoolURL : list Event -> DB -> N -> Reply string;
  CommitSucceeds : list Event -> bool;
  VerifyMiner : DB -> string -> DB * N
}.

(** The state the program acts on: the committed tables, the [thisMiner]
    variable of [main] (shared by pointer with [changeAlgoGetParams] and
    [checkIn]), and the history. *)
Record World := mkWorld {
  store : DB;
  thisMiner : Miner;
  trace : list Event
}.

Definition M (A : Type) : Type := World -> World * Outcome A.

Definition ret (A : Type) (a : A) : M A := fun w => (w, Ret a).

Definition bind (A B : Type) (m : M A) (k : A -> M B) : M B :=
  fun w =>
    match m w with
    | (w', Ret a) => k a w'
    | (w', Fatal e) => (w', Fatal e)
    | (w', Panic p) => (w', Panic p)
    | (w', OutOfFuel) => (w', OutOfFuel)
    end.

Notation "x <- m ;; k" := (bind m (fun x => k))
  (at level 61, m at next level, right associativity).
Notation "m ;;; k" := (bind m (fun _ => k))
  (at level 61, right associativity).

Definition fatal (A : Type) (e : FatalError) : M A := fun w => (w, Fatal e).
Definition panic (A : Type) (p : RuntimePanic) : M A := fun w => (w, Panic p).
Definition out_of_fuel (A : Type) : M A := fun w => (w, OutOfFuel).
Definition lift (A : Type) (o : Outcome A) : M A := fun w => (w, o).

Arguments fatal {A} e.
Arguments panic {A} p.
Arguments out_of_fuel {A}.

Definition emit (e : Event) : M unit :=
  fun w => (mkWorld (store w) (thisMiner w) (trace w ++ [e]), Ret tt).

Definition get_store : M DB := fun w => (w, Ret (store w)).
Definition set_store (db : DB) : M unit :=
  fun w => (mkWorld db (thisMiner w) (trace w), Ret tt).
Definition get_miner : M Miner := fun w => (w, Ret (thisMiner w)).
Definition set_miner (m : Miner) : M unit :=
  fun w => (mkWorld (store w) m (trace w), Ret tt).
Definition history : M (list Event) := fun w => (w, Ret (trace w)).

Definition when (c : bool) (m : M unit) : M unit := if c then m else ret tt.

(** *** Writes *)

Local Open Scope N_scope.

(** [Save] of a record whose primary key is set (not 0): update the row with
    that key, insert the record when there is none. For a record whose key is
    0 gorm inserts a new row under a key the database chooses and writes that
    key back into the record; that case is outside [SaveMiner], and every
    statement below about the rows of the store assumes a key other than 0
    (in [main] the record comes from a row that [VerifyMiner] created or
    found). The statement is taken to be carried out: the program discards
    the result of [Save]. *)
Fixpoint save_row (m : Miner) (l : list Miner) : list Miner :=
  match l with
  | [] => [m]
  | x :: r => if miner_ID x =? miner_ID m then m :: r else x :: save_row m r
  end.

Definition SaveMiner (m : Miner) (db : DB) : DB :=
  mkDB (save_row m (miners db)) (algorithms db) (miner_softwares db)
    (miner_miner_softwares db) (miner_software_algos db) (miner_stats db)
    (pools db) (pool_stats db) (coin_prices db).

Definition with_algo (m : Miner) (id : N) : Miner :=
  mkMiner (miner_ID m) (miner_Name m) id (SendEmail m) false (LastCheckIn m).

Definition with_check_in (m : Miner) (t : Z) : Miner :=
  mkMiner (miner_ID m) (miner_Name m) (MinerSoftwareAlgoID m) (SendEmail m)
    (OfflineNoticeSent m) t.

(** [tx.Commit()]: on success the transaction's view becomes the store. *)
Definition commit (env : Env) (tx : DB) : M bool :=
  h <- history ;;
  let ok := CommitSucceeds env h in
  emit (ECommit ok) ;;;
  when ok (set_store tx) ;;;
  ret ok.

(** *** The operating system *)

Definition pidExists (env : Env) (pid : Z) : M bool :=
  h <- history ;;
  let alive := PidExists env h pid in
  emit (EPidExists pid alive) ;;;
  ret alive.

(** [openProcess] *)
Definition openProcess (env : Env) (filePath : string) (params : list string) : M Z :=
  h <- history ;;
  let started := StartProcess env h filePath params in
  emit (EStartProcess filePath params started) ;;;
  match started with
  | Some proc => ret proc
  | None => fatal StartFailed
  end.

(** ** 4.2 The launch specification builder: [changeAlgoGetParams] *)

Definition new_optimal_subject (config : Config) : string :=
  MinerName config ++ ": New Optimal".

(** [tx.Where("id = ?", id).Find(&minerSoft)] *)
Definition find_software (tx : DB) (id : N) : MinerSoftware :=
  Find MinerSoftware_zero (filter (fun s => soft_ID s =? id) (miner_softwares tx)).

(** [tx.Where("id = ?", id).Find(&algo)] *)
Definition find_algorithm (tx : DB) (id : N) : Algorithm :=
  Find Algorithm_zero (filter (fun a => algo_ID a =? id) (algorithms tx)).

(** [tx.Where("miner_id = ? AND miner_software_id = ?", ...).Find(&minerSoftDetails)] *)
Definition find_file_path (tx : DB) (minerID softwareID : N) : MinerMinerSoftware :=
  Find MinerMinerSoftware_zero
    (filter (fun d => (mms_MinerID d =? minerID) && (mms_MinerSoftwareID d =? softwareID))
       (miner_miner_softwares tx)).

(** [tx.First(miner, miner.ID)]: the row is scanned over the record the
    pointer refers to. *)
Definition reread_miner (tx : DB) (miner : Miner) : Miner :=
  Find miner (filter (fun m => miner_ID m =? miner_ID miner) (miners tx)).

(** [tx.Where("id = ?", minerID).Find(&thisMiner)] *)
Definition find_miner (tx : DB) (minerID : N) : Miner :=
  Find Miner_zero (filter (fun m => miner_ID m =? minerID) (miners tx)).

(** The body of the function; the deferred [recover] is added below. *)
Definition changeAlgoGetParams_body (env : Env) (bestSoftwareAlgo : MinerSoftwareAlgos)
    (config : Config) : M (list string * string) :=
  tx <- get_store ;;
  emit EBegin ;;;
  let minerSoft := find_software tx (msa_MinerSoftwareID bestSoftwareAlgo) in
  let algo := find_algorithm tx (msa_AlgorithmID bestSoftwareAlgo) in
  if (if MinerSoftware_eq_dec MinerSoftware_zero minerSoft then true else false) ||
     (if Algorithm_eq_dec Algorithm_zero algo then true else false)
  then fatal BadSoftwareOrAlgoLink
  else
    miner <- get_miner ;;
    let minerSoftDetails := find_file_path tx (miner_ID miner) (soft_ID minerSoft) in
    if MinerMinerSoftware_eq_dec MinerMinerSoftware_zero minerSoftDetails
    then fatal NoFilePath
    else
      set_miner (reread_miner tx miner) ;;;
      miner <- get_miner ;;
      (if (0 <? Go.len (EmailServer config))%Z then
         match SendEmail miner with
         | None => panic NilPointerDereference
         | Some true => emit (ESendEmail (new_optimal_subject config))
         | Some false => ret tt
         end
       else ret tt) ;;;
      set_miner (with_algo miner (msa_ID bestSoftwareAlgo)) ;;;
      miner <- get_miner ;;
      emit (ETxSave miner) ;;;
      let tx := SaveMiner miner tx in
      h <- history ;;
      match GeneratePoolURL env h tx (msa_AlgorithmID bestSoftwareAlgo) with
      | Panics => panic ExternalPanic
      | Exits => fatal ExternalExit
      | Returns poolURL =>
          let params :=
            [soft_Name minerSoft;
             AlgoParam minerSoft; msa_Name bestSoftwareAlgo;
             PoolParam minerSoft; poolURL;
             WalletParam minerSoft; Wallet config;
             PasswordParam minerSoft; PoolPassword config] in
          let params :=
            if (0 <? Go.len (OtherParams minerSoft))%Z
            then params ++ Go.Split (OtherParams minerSoft) " "
            else params in
          let params :=
            if (0 <? Go.len (ExtraParams bestSoftwareAlgo))%Z
            then params ++ Go.Split (ExtraParams bestSoftwareAlgo) " "
            else params in
          ok <- commit env tx ;;
          if ok then ret (params, FilePath minerSoftDetails)
          else fatal CommitFailed
      end.

(** The deferred call: a panic is recovered, the transaction rolled back,
    and the function returns the zero values of its results. *)
Definition changeAlgoGetParams (env : Env) (bestSoftwareAlgo : MinerSoftwareAlgos)
    (config : Config) : M (list string * string) :=
  fun w =>
    match changeAlgoGetParams_body env bestSoftwareAlgo config w with
    | (w', Panic _) => (emit ERollback ;;; ret ([], EmptyString)) w'
    | r => r
    end.

(** ** The heartbeat: [checkIn] *)

(** One call of [Save] on the database handle, outside the transactions the
    program opens itself; what the database receives for it is given by
    [statements] below. *)
Definition checkIn (env : Env) : M unit :=
  h <- history ;;
  miner <- get_miner ;;
  set_miner (with_check_in miner (Now env h)) ;;;
  miner <- get_miner ;;
  emit (EDbSave miner) ;;;
  db <- get_store ;;
  set_store (SaveMiner miner db).

(** ** 4.3 / 4.4 The supervisor and the control loop of [main] *)

Local Open Scope Z_scope.

(** The local variables of [main] that the loop carries. *)
Record LoopState := mkLoopState {
  params : list string;
  filePath : string;
  proc : Z;
  secondsSlept : Z
}.

Definition processCheckTime : Z := 30.
Definition maxKillNumber : Z := 1000.

Definition unkillable_subject : string :=
  "Fatal error: Unable to close inferior process after 1,000 attempts.".

(** The loop [for exists { ... }]; [timesKilled] bounds it, so a budget of
    [maxKillNumber + 1] rounds is never used up. *)
Fixpoint killLoop (fuel : nat) (env : Env) (config : Config) (proc : Z)
    (exists_ : bool) (timesKilled : Z) : M unit :=
  if exists_ then
    match fuel with
    | O => out_of_fuel
    | S fuel' =>
        let timesKilled := Go.int_add timesKilled 1 in
        if maxKillNumber <? timesKilled then
          when (0 <? Go.len (EmailServer config)) (emit (ESendEmail unkillable_subject)) ;;;
          fatal Unkillable
        else
          emit (EKill proc) ;;;
          emit (EWait proc) ;;;
          emit (ESleep 10) ;;;
          exists_ <- pidExists env (Go.int32 proc) ;;
          killLoop fuel' env config proc exists_ timesKilled
    end
  else ret tt.

(** Kill, wait, probe, and retry until the process is gone. *)
Definition Terminate (env : Env) (config : Config) (proc : Z) : M unit :=
  emit (EKill proc) ;;;
  emit (EWait proc) ;;;
  exists_ <- pidExists env (Go.int32 proc) ;;
  killLoop (S (Z.to_nat maxKillNumber)) env config proc exists_ 0.

Definition select (minerID : N) (config : Config) : M MinerSoftwareAlgos :=
  db <- get_store ;;
  emit ESelect ;;;
  lift (Selector.getBestSoftwareAlgo db minerID (UseEstimates config)).

(** [secondsSlept > 0 && secondsSlept % config.OptimizationCheckTime == 0] *)
Definition optimization_due (config : Config) (st : LoopState) : Outcome bool :=
  if 0 <? secondsSlept st then
    match Go.int_rem (secondsSlept st) (OptimizationCheckTime config) with
    | Ret r => Ret (r =? 0)
    | Fatal e => Fatal e
    | Panic p => Panic p
    | OutOfFuel => OutOfFuel
    end
  else Ret false.

(** The branch that checks for a better combination. *)
Definition reoptimize (env : Env) (config : Config) (minerID : N) (st : LoopState)
  : M LoopState :=
  let st := mkLoopState (params st) (filePath st) (proc st) 0 in
  optimizationAlgo <- select minerID config ;;
  miner <- get_miner ;;
  if negb (msa_ID optimizationAlgo =? MinerSoftwareAlgoID miner)%N then
    Terminate env config (proc st) ;;;
    pf <- changeAlgoGetParams env optimizationAlgo config ;;
    proc' <- openProcess env (snd pf) (fst pf) ;;
    ret (mkLoopState (fst pf) (snd pf) proc' (secondsSlept st))
  else ret st.

(** The branch that sleeps and checks the process. *)
Definition tick (env : Env) (st : LoopState) : M LoopState :=
  emit (ESleep processCheckTime) ;;;
  let st := mkLoopState (params st) (filePath st) (proc st)
              (Go.int_add (secondsSlept st) processCheckTime) in
  exists_ <- pidExists env (Go.int32 (proc st)) ;;
  if exists_ then
    checkIn env ;;;
    ret st
  else
    emit (EKill (proc st)) ;;;
    emit (EWait (proc st)) ;;;
    proc' <- openProcess env (filePath st) (params st) ;;
    ret (mkLoopState (params st) (filePath st) proc' (secondsSlept st)).

(** One iteration of [for { ... }]. *)
Definition loop_body (env : Env) (config : Config) (minerID : N) (st : LoopState)
  : M LoopState :=
  due <- lift (optimization_due config st) ;;
  if due then reoptimize env config minerID st else tick env st.

(** [n] iterations, or fewer when one of them ends the program. *)
Fixpoint run_loop (n : nat) (env : Env) (config : Config) (minerID : N)
    (st : LoopState) : M LoopState :=
  match n with
  | O => ret st
  | S n' =>
      st' <- loop_body env config minerID st ;;
      run_loop n' env config minerID st'
  end.

(** [main] up to the loop: the miner lookup, the first selection, the first
    launch. *)
Definition startup (env : Env) (config : Config) : M (N * LoopState) :=
  db <- get_store ;;
  emit EBegin ;;;
  let (tx, minerID) := VerifyMiner env db (MinerName config) in
  set_miner (find_miner tx minerID) ;;;
  miner <- get_miner ;;
  if Miner_eq_dec Miner_zero miner then fatal MinerNotFound
  else
    ok <- commit env tx ;;
    if negb ok then fatal CommitFailed
    else
      bestSoftwareAlgo <- select minerID config ;;
      pf <- changeAlgoGetParams env bestSoftwareAlgo config ;;
      proc <- openProcess env (snd pf) (fst pf) ;;
      ret (minerID, mkLoopState (fst pf) (snd pf) proc 0).

(** [main] with the loop cut after [n] iterations. A [Fatal] outcome is the
    exit of the program; a [Panic] outcome stands for the unwinding of
    [main], whose deferred calls (kill the child, recover, roll back) then run
    before the program ends. *)
Definition main (n : nat) (env : Env) (config : Config) : M LoopState :=
  s <- startup env config ;;
  run_loop n env config (fst s) (snd s).

(** ** Shapes of histories *)

(** One round of the retry loop against a process that is still there. *)
Definition retry_round (proc : Z) : list Event :=
  [EKill proc; EWait proc; ESleep 10; EPidExists (Go.int32 proc) true].

(** The notification of the unkillable process, sent when a server is set. *)
Definition unkillable_notice (config : Config) : list Event :=
  if (0 <? Go.len (EmailServer config))%Z then [ESendEmail unkillable_subject] else [].

(** Events of the supervisor while it stops a process: no launch among them. *)
Definition supervisor_event (e : Event) : bool :=
  match e with
  | EKill _ | EWait _ | ESleep _ | EPidExists _ _ | ESendEmail _ => true
  | _ => false
  end.

(** Events of the launch specification builder: the transaction and the
    notification, nothing that touches a process. *)
Definition builder_event (e : Event) : bool :=
  match e with
  | EBegin | ETxSave _ | ECommit _ | ERollback | ESendEmail _ => true
  | _ => false
  end.

(** Every [Save] of the history is called between a [Begin] of the program
    and the [Commit] or [Rollback] that closes it; [open] tells whether such
    a transaction is open at the start of the history. *)
Fixpoint writes_in_transaction (open : bool) (h : list Event) : bool :=
  match h with
  | [] => true
  | EBegin :: r => writes_in_transaction true r
  | ECommit _ :: r => writes_in_transaction false r
  | ERollback :: r => writes_in_transaction false r
  | ETxSave _ :: r => open && writes_in_transaction open r
  | EDbSave _ :: r => open && writes_in_transaction open r
  | _ :: r => writes_in_transaction open r
  end.

(** *** What the database receives *)

(** The statements of a database session that concern transactions. *)
Inductive Statement :=
| SqlBegin
| SqlUpdate (m : Miner)
| SqlCommit (ok : bool)
| SqlRollback.

(** Modelled from the spec: what the database receives for each call of the
    program on a gorm handle. The handle is made by [Connect] of the shared
    database package and [Save] is gorm's; neither is in the source of this
    program. The specification has the heartbeat write wrapped in a scoped
    transaction that commits on success, as the combination switch is: a
    [Save] called on the handle itself is carried out by the library as a
    transaction of its own, begin, update, commit, where the calls on a
    transaction handle reach the database one by one. *)
Definition statements (e : Event) : list Statement :=
  match e with
  | EBegin => [SqlBegin]
  | ETxSave m => [SqlUpdate m]
  | ECommit ok => [SqlCommit ok]
  | ERollback => [SqlRollback]
  | EDbSave m => [SqlBegin; SqlUpdate m; SqlCommit true]
  | _ => []
  end.

Definition session (h : list Event) : list Statement := flat_map statements h.

(** Every update of the session lies between a begin and the commit or
    rollback that closes it; [open] tells whether a transaction is open at
    the start. *)
Fixpoint updates_in_transaction (open : bool) (s : list Statement) : bool :=
  match s with
  | [] => true
  | SqlBegin :: r => updates_in_transaction true r
  | SqlUpdate _ :: r => open && updates_in_transaction open r
  | SqlCommit _ :: r => updates_in_transaction false r
  | SqlRollback :: r => updates_in_transaction false r
  end.

(** Whether a transaction is open at the end of the session. *)
Fixpoint open_after (open : bool) (s : list Statement) : bool :=
  match s with
  | [] => open
  | SqlBegin :: r => open_after true r
  | SqlUpdate _ :: r => open_after open r
  | SqlCommit _ :: r => open_after false r
  | SqlRollback :: r => open_after false r
  end.

(** Whether a call came back to its caller. *)
Definition returned (A : Type) (o : Outcome A) : bool :=
  match o with
  | Ret _ => true
  | _ => false
  end.

(** From [w], where no transaction is open, to [w'] the history grew by
    events whose session keeps every update inside a transaction; when
    [closed] is set, no transaction is open at [w'] either. *)
Definition transactional_step (w w' : World) (closed : bool) : Prop :=
  exists evs,
    trace w' = trace w ++ evs /\
    updates_in_transaction false (session evs) = true /\
    (closed = true -> open_after false (session evs) = false).

(** The path and arguments of the most recent launch of a history. *)
Fixpoint last_launch (h : list Event) : option (string * list string) :=
  match h with
  | [] => None
  | e :: r =>
      match last_launch r with
      | Some spec => Some spec
      | None =>
          match e with
          | EStartProcess path args _ => Some (path, args)
          | _ => None
          end
      end
  end.

(** The loop's [filePath] and [params] are those of the most recent launch. *)
Definition holds_last_launch (st : LoopState) (w : World) : Prop :=
  last_launch (trace w) = Some (filePath st, params st).

(** The argument list in its fixed order; [split] cuts the two free-form
    strings, each of which contributes only when it is not empty. *)
Definition argument_list (split : string -> list string) (minerSoft : MinerSoftware)
    (bestSoftwareAlgo : MinerSoftwareAlgos) (config : Config) (poolURL : string)
  : list string :=
  [soft_Name minerSoft;
   AlgoParam minerSoft; msa_Name bestSoftwareAlgo;
   PoolParam minerSoft; poolURL;
   WalletParam minerSoft; Wallet config;
   PasswordParam minerSoft; PoolPassword config] ++
  (if String.eqb (OtherParams minerSoft) EmptyString then [] else split (OtherParams minerSoft)) ++
  (if String.eqb (ExtraParams bestSoftwareAlgo) EmptyString then []
   else split (ExtraParams bestSoftwareAlgo)).

Definition heartbeats (h : list Event) : nat :=
  List.length (filter (fun e => match e with EDbSave _ => true | _ => false end) h).

(** ** Sample data *)

Module Sample.

Local Open Scope N_scope.

Definition rig : Miner := mkMiner 1 "rig" 0 (Some true) false 0.

Definition worker : MinerSoftware :=
  mkMinerSoftware 1 "worker" "--algo" "--pool" "--wallet" "--pass" EmptyString.

Definition x17 : Algorithm := mkAlgorithm 1 "x17".
Definition scrypt : Algorithm := mkAlgorithm 2 "scrypt".

(** Combination A (worker, x17) and combination B (worker, scrypt). *)
Definition A : MinerSoftwareAlgos := mkMinerSoftwareAlgos 1 1 1 "x17" EmptyString None.
Definition B : MinerSoftwareAlgos := mkMinerSoftwareAlgos 2 1 2 "scrypt" EmptyString (Some false).

Definition stats : list MinerStats :=
  [mkMinerStats 1 1 1 1 10 1; mkMinerStats 2 1 1 2 19 1; mkMinerStats 3 1 1 1 14 1].

(** A scores 1 * 10 * (1 / 1) * 12 = 120 and B scores 1 * 5 * (1 / 1) * 19 = 95
    on estimates. *)
Definition db : DB :=
  mkDB [rig] [x17; scrypt] [worker] [mkMinerMinerSoftware 1 1 "/bin/worker"]
    [A; B] stats
    [mkPool 1 1 1; mkPool 2 2 1]
    [mkPoolStats 1 1 1 10 10000; mkPoolStats 2 2 1 5 5000]
    [mkCoinPrice 1 1].

Definition config : Config :=
  mkConfig "rig" "x" "W" 1 0 600 EmptyString EmptyString EmptyString EmptyString EmptyString EmptyString.

(** An environment in which the child stays alive, every launch succeeds
    with process identifier 4242, and every collaborator call returns. *)
Definition steady : Env :=
  mkEnv (fun _ _ => true)
        (fun _ _ _ => Some 4242%Z)
        (fun h => Z.of_nat (List.length h))
        (fun _ _ _ => Returns "stratum+tcp://p:3333")
        (fun _ => true)
        (fun db _ => (db, 1)).

(** The same, with a child that is gone at every probe. *)
Definition mortal : Env :=
  mkEnv (fun _ _ => false)
        (fun _ _ _ => Some 4243%Z)
        (fun h => Z.of_nat (List.length h))
        (fun _ _ _ => Returns "stratum+tcp://p:3333")
        (fun _ => true)
        (fun db _ => (db, 1)).

Definition world : World := mkWorld db rig [].

(** The tables before any statistics were collected. *)
Definition no_stats_db : DB :=
  mkDB [rig] [x17; scrypt] [worker] [mkMinerMinerSoftware 1 1 "/bin/worker"]
    [A; B] [] [mkPool 1 1 1; mkPool 2 2 1]
    [mkPoolStats 1 1 1 10 10000; mkPoolStats 2 2 1 5 5000]
    [mkCoinPrice 1 1].

Definition launched : LoopState :=
  mkLoopState
    ["worker"; "--algo"; "x17"; "--pool"; "stratum+tcp://p:3333";
     "--wallet"; "W"; "--pass"; "x"]
    "/bin/worker" 4242 0.

(** The same locals once 600 seconds have been slept. *)
Definition due : LoopState :=
  mkLoopState (params launched) (filePath launched) (proc launched) 600.

(** A software entry whose extra arguments are separated by a tab. *)
Definition tab : ascii := "009"%char.

Definition tab_worker : MinerSoftware :=
  mkMinerSoftware 1 "worker" "--algo" "--pool" "--wallet" "--pass"
    ("--intensity" ++ String tab "20").

Definition tab_db : DB :=
  mkDB [rig] [x17; scrypt] [tab_worker] [mkMinerMinerSoftware 1 1 "/bin/worker"]
    [A; B] stats
    [mkPool 1 1 1; mkPool 2 2 1]
    [mkPoolStats 1 1 1 10 10000; mkPoolStats 2 2 1 5 5000]
    [mkCoinPrice 1 1].

(** An e-mail server is configured, and the miner row has no e-mail
    preference. *)
Definition config_email : Config :=
  mkConfig "rig" "x" "W" 1 0 600 "smtp.example.org" "25" "u" "p" "from" "to".

Definition rig_no_preference : Miner := mkMiner 1 "rig" 0 None false 0.

Definition db_no_preference : DB :=
  mkDB [rig_no_preference] [x17; scrypt] [worker]
    [mkMinerMinerSoftware 1 1 "/bin/worker"]
    [A; B] stats
    [mkPool 1 1 1; mkPool 2 2 1]
    [mkPoolStats 1 1 1 10 10000; mkPoolStats 2 2 1 5 5000]
    [mkCoinPrice 1 1].

Definition world_no_preference : World :=
  mkWorld db_no_preference rig_no_preference [].

(** A configuration whose optimization-check period is zero, and the locals
    after one 30-second sleep. *)
Definition config_period_0 : Config :=
  mkConfig "rig" "x" "W" 1 0 0 EmptyString EmptyString EmptyString EmptyString EmptyString EmptyString.

Definition slept_30 : LoopState :=
  mkLoopState (params launched) (filePath launched) (proc launched) 30.

(** A database whose only scorable row carries a combination record with
    every field at its zero value (software 0, algorithm 0). *)
Definition zero_db : DB :=
  mkDB [rig] [mkAlgorithm 0 EmptyString] [MinerSoftware_zero] [] [MinerSoftwareAlgos_zero]
    [mkMinerStats 1 1 0 0 10 1]
    [mkPool 1 0 1]
    [mkPoolStats 1 1 1 10 10000]
    [mkCoinPrice 1 1].

End Sample.

(** ** The claims of the specification, in its words *)

Module Claim.

(** Every update the database receives in the course of a history lies
    inside a transaction. *)
Definition updates_in_transactions (h : list Event) : Prop :=
  updates_in_transaction false (session h) = true.

(** The builder returns the argument list in the fixed order, the extras
    split on whitespace. *)
Definition arguments_split_on_whitespace (env : Env) (bestSoftwareAlgo : MinerSoftwareAlgos)
    (config : Config) (w : World) (minerSoft : MinerSoftware) (poolURL path : string)
  : Prop :=
  snd (changeAlgoGetParams env bestSoftwareAlgo config w) =
    Ret (argument_list spec_whitespace_split minerSoft bestSoftwareAlgo config poolURL,
         path).

(** Re-optimization runs exactly when the slept-seconds counter is nonzero
    and a multiple of the period, and then resets the counter; every other
    iteration sleeps 30 seconds, adds 30 to the counter, probes the process,
    and records a heartbeat when it is alive. *)
Definition loop_schedule (env : Env) (config : Config) (minerID : N)
    (st : LoopState) (w : World) : Prop :=
  let r := loop_body env config minerID st w in
  let due := secondsSlept st <> 0%Z /\
             (OptimizationCheckTime config | secondsSlept st)%Z in
  (due ->
     (exists rest, trace (fst r) = trace w ++ ESelect :: rest) /\
     (forall st', snd r = Ret st' -> secondsSlept st' = 0%Z)) /\
  (~ due ->
     exists alive rest,
       trace (fst r) =
         trace w ++ ESleep 30 :: EPidExists (Go.int32 (proc st)) alive :: rest /\
       ~ In ESelect rest /\
       (forall st', snd r = Ret st' ->
                    secondsSlept st' = Go.int_add (secondsSlept st) 30) /\
       (alive = true ->
          rest = [EDbSave (thisMiner (fst r))] /\ exists st', snd r = Ret st')).

(** With a period of 600 seconds and a process that stays alive, starting
    from a counter of zero: 9 ticks give 9 heartbeats and no selection, 20
    ticks bring the counter to 600 without a selection, and the iteration
    after the 20th tick runs the selection. *)
Definition alive_scenario (env : Env) (config : Config) (minerID : N)
    (st : LoopState) (w : World) : Prop :=
  (exists w9 st9 h9,
     run_loop 9 env config minerID st w = (w9, Ret st9) /\
     trace w9 = trace w ++ h9 /\
     heartbeats h9 = 9%nat /\ ~ In ESelect h9 /\ secondsSlept st9 = 270%Z) /\
  (exists w20 st20 h20,
     run_loop 20 env config minerID st w = (w20, Ret st20) /\
     trace w20 = trace w ++ h20 /\
     heartbeats h20 = 20%nat /\ ~ In ESelect h20 /\ secondsSlept st20 = 600%Z /\
     exists rest,
       trace (fst (loop_body env config minerID st20 w20)) =
         trace w20 ++ ESelect :: rest).

End Claim.

(** ** Further observations on histories and tables *)

(** Number of [proc.Kill()] calls in a history. *)
Definition kills (h : list Event) : nat :=
  List.length (filter (fun e => match e with EKill _ => true | _ => false end) h).

(** The two stores agree on every table but [miners]. *)
Definition same_catalog (a b : DB) : Prop :=
  algorithms a = algorithms b /\
  miner_softwares a = miner_softwares b /\
  miner_miner_softwares a = miner_miner_softwares b /\
  miner_software_algos a = miner_software_algos b /\
  miner_stats a = miner_stats b /\
  pools a = pools b /\
  pool_stats a = pool_stats b /\
  coin_prices a = coin_prices b.

(** The rows of [miners] that belong to other miners than [id]. *)
Definition other_miners (id : N) (db : DB) : list Miner :=
  filter (fun m => negb (miner_ID m =? id)%N) (miners db).

(** From [w] to [w'] the program wrote at most the row of its own miner: the
    miner record keeps its identifier, the other tables and the rows of the
    other miners are as they were. *)
Definition wrote_own_row_only (w w' : World) : Prop :=
  miner_ID (thisMiner w') = miner_ID (thisMiner w) /\
  same_catalog (store w) (store w') /\
  other_miners (miner_ID (thisMiner w)) (store w') =
    other_miners (miner_ID (thisMiner w)) (store w).

(** The most recent launch of a history: path, arguments and what the
    operating system answered. *)
Fixpoint last_start (h : list Event) : option (string * list string * option Z) :=
  match h with
  | [] => None
  | e :: r =>
      match last_start r with
      | Some s => Some s
      | None =>
          match e with
          | EStartProcess path args started => Some (path, args, started)
          | _ => None
          end
      end
  end.

(** The loop's [filePath], [params] and [proc] are those of the most recent
    launch, which the operating system accepted. *)
Definition tracks_last_start (st : LoopState) (w : World) : Prop :=
  last_start (trace w) = Some (filePath st, params st, Some (proc st)).

(** [strings.Join(pieces, sep)] for a one-byte separator. *)
Fixpoint Join (pieces : list string) (sep : ascii) : string :=
  match pieces with
  | [] => EmptyString
  | [p] => p
  | p :: rest => (p ++ String sep (Join rest sep))%string
  end.

(** Number of bytes of [s] equal to [c]. *)
Fixpoint occurrences (c : ascii) (s : string) : nat :=
  match s with
  | EmptyString => O
  | String d r => ((if Ascii.eqb c d then 1 else 0) + occurrences c r)%nat
  end.

(** The tables with the combinations marked "do not use" deleted. *)
Definition without_ineligible (db : DB) : DB :=
  mkDB (miners db) (algorithms db) (miner_softwares db) (miner_miner_softwares db)
    (filter Selector.eligible (miner_software_algos db)) (miner_stats db)
    (pools db) (pool_stats db) (coin_prices db).

(** *** The deferred calls of [main] *)

(** What runs when a panic unwinds [main] out of its loop: the deferred
    [proc.Kill()] first, then the deferred [recover] with its
    [tx.Rollback()] on the transaction committed long before; [main] then
    returns. *)
Definition deferred (st : LoopState) : M LoopState :=
  emit (EKill (proc st)) ;;;
  emit ERollback ;;;
  ret st.

(** The loop of [main] under its deferred calls, cut after [n] iterations. *)
Fixpoint supervise (n : nat) (env : Env) (config : Config) (minerID : N)
    (st : LoopState) : M LoopState :=
  match n with
  | O => ret st
  | S n' =>
      fun w =>
        match loop_body env config minerID st w with
        | (w', Ret st') => supervise n' env config minerID st' w'
        | (w', Panic _) => deferred st w'
        | r => r
        end
  end.

(** More sample data. *)
Module Sample2.

(** A period that is not a multiple of the 30-second tick. *)
Definition config_45 : Config :=
  mkConfig "rig" "x" "W" 1 0 45 EmptyString EmptyString EmptyString EmptyString
    EmptyString EmptyString.

(** The world right after the sample start of [main] with the steady
    environment. *)
Definition started : World :=
  fst (startup Sample.steady Sample.config Sample.world).

End Sample2.

(** * Properties *)

Unset Implicit Arguments.

(** ** The selector *)

Section SelectorFacts.

Import Selector.

Section Ordering.
Variable A : Type.
Variable key : A -> Q.

Lemma insert_desc_perm (x : A) (l : list A) :
  Permutation (x :: l) (insert_desc key x l).
Proof.
  induction l as [|y r IH]; simpl.
  - apply Permutation_refl.
  - destruct (Qle_bool (key y) (key x)).
    + apply Permutation_refl.
    + eapply perm_trans; [apply perm_swap|]. now apply perm_skip.
Qed.

Lemma order_by_desc_perm (l : list A) : Permutation l (order_by_desc key l).
Proof.
  induction l as [|x r IH]; simpl.
  - constructor.
  - eapply perm_trans; [apply perm_skip, IH|]. apply insert_desc_perm.
Qed.

(** The first row of the ordered result is a row of the list. *)
Lemma order_by_desc_head (l : list A) :
  l <> [] ->
  exists h t, order_by_desc key l = h :: t /\ In h l.
Proof.
  intros Hne.
  pose proof (order_by_desc_perm l) as Hp.
  destruct (order_by_desc key l) as [|h t].
  - apply Permutation_sym, Permutation_nil in Hp. contradiction.
  - exists h, t. split; [reflexivity|].
    eapply Permutation_in; [apply Permutation_sym, Hp|]. now left.
Qed.
End Ordering.

(** Every row that survives the [WHERE] clause carries an eligible
    combination. *)
Lemma joined_rows_eligible db minerID r :
  In r (joined_rows db minerID) -> eligible (combination r) = true.
Proof.
  unfold joined_rows. intros H.
  repeat (apply in_flat_map in H; destruct H as [? [_ H]]).
  match type of H with In _ (if ?c then _ else _) => destruct c eqn:E end;
    [|contradiction].
  destruct H as [<-|[]]. simpl.
  apply andb_true_iff in E. tauto.
Qed.

(** What the selector does with a non-empty join: the record it fetches is
    the combination of a row of the join, whichever row the order puts
    first. *)
Lemma getBestSoftwareAlgo_nonempty db minerID useEstimates :
  joined_rows db minerID <> [] ->
  exists r,
    In r (joined_rows db minerID) /\
    eligible (combination r) = true /\
    getBestSoftwareAlgo db minerID useEstimates =
      if MinerSoftwareAlgos_eq_dec MinerSoftwareAlgos_zero (combination r)
      then Fatal NoViableOptimization
      else Ret (combination r).
Proof.
  intros Hne.
  destruct (order_by_desc_head _ (orderLogic useEstimates) _ Hne)
    as (h & t & Hsort & Hin).
  exists h. split; [exact Hin|]. split; [eapply joined_rows_eligible; eauto|].
  unfold getBestSoftwareAlgo, query. rewrite Hsort. reflexivity.
Qed.

(** The combination of a scorable row is a row of the combinations table. *)
Lemma joined_rows_combination db minerID r :
  In r (joined_rows db minerID) -> In (combination r) (miner_software_algos db).
Proof.
  unfold joined_rows. intros H.
  do 5 (apply in_flat_map in H; destruct H as [? [_ H]]).
  apply in_flat_map in H. destruct H as [c [Hc H]].
  repeat (apply in_flat_map in H; destruct H as [? [_ H]]).
  match type of H with In _ (if ?b then _ else _) => destruct b end;
    [|contradiction].
  destruct H as [<-|[]]. simpl.
  apply filter_In in Hc. tauto.
Qed.

(** No sample of the miner, no row. *)
Lemma no_samples_no_rows db minerID :
  filter (fun s => stat_miner_id s =? minerID)%N (miner_stats db) = [] ->
  joined_rows db minerID = [].
Proof.
  intros H. unfold joined_rows, subLatestStat. rewrite H. cbn [group_by map filter flat_map].
  induction (miners db) as [|m l IH]; [reflexivity | exact IH].
Qed.

(** Every combination marked "do not use", no row. *)
Lemma all_ineligible_no_rows db minerID :
  (forall c, In c (miner_software_algos db) -> do_not_use c = Some true) ->
  joined_rows db minerID = [].
Proof.
  intros Hall. destruct (joined_rows db minerID) as [|r l] eqn:E; [reflexivity|].
  assert (In r (joined_rows db minerID)) as Hr by (rewrite E; now left).
  pose proof (joined_rows_eligible db minerID r Hr) as He.
  apply joined_rows_combination, Hall in Hr.
  unfold eligible in He. rewrite Hr in He. discriminate.
Qed.

(** What the selector does with an empty join. *)
Lemma getBestSoftwareAlgo_empty db minerID useEstimates :
  joined_rows db minerID = [] ->
  getBestSoftwareAlgo db minerID useEstimates = Fatal NoViableOptimization.
Proof.
  intros He. unfold getBestSoftwareAlgo, query. rewrite He. reflexivity.
Qed.

End SelectorFacts.

(** ** Arithmetic of Go's [int] *)

Lemma wrap_int_small (z : Z) :
  (- 2 ^ 63 <= z < 2 ^ 63)%Z -> Go.wrap_int z = z.
Proof.
  intros H. unfold Go.wrap_int, Go.wrap.
  change (2 ^ (64 - 1))%Z with (2 ^ 63)%Z.
  rewrite Z.mod_small; lia.
Qed.

Lemma int_add_small (a b : Z) :
  (- 2 ^ 63 <= a + b < 2 ^ 63)%Z -> Go.int_add a b = (a + b)%Z.
Proof. apply wrap_int_small. Qed.

Lemma int32_small (z : Z) :
  (- 2 ^ 31 <= z < 2 ^ 31)%Z -> Go.int32 z = z.
Proof.
  intros H. unfold Go.int32, Go.wrap.
  change (2 ^ (32 - 1))%Z with (2 ^ 31)%Z.
  rewrite Z.mod_small; lia.
Qed.

(** ** The monad *)

Lemma app_one_assoc (A : Type) (l : list A) (x : A) (r : list A) :
  (l ++ [x]) ++ r = l ++ x :: r.
Proof. now rewrite <- app_assoc. Qed.

(** Flatten the history to [trace w ++ e1 :: e2 :: ...]. *)
Ltac flat :=
  repeat first [rewrite app_one_assoc | rewrite <- app_assoc | progress cbn [app]].

Tactic Notation "flat" "in" hyp(H) :=
  repeat first [rewrite app_one_assoc in H | rewrite <- app_assoc in H
               | progress cbn [app] in H].

Arguments bind {A B} m k w /.
Arguments ret {A} a w /.
Arguments fatal {A} e w /.
Arguments panic {A} p w /.
Arguments lift {A} o w /.
Arguments emit e w /.
Arguments when c m /.
Arguments get_store w /.
Arguments set_store db w /.
Arguments get_miner w /.
Arguments set_miner m w /.
Arguments history w /.
Arguments pidExists env pid w /.
Arguments openProcess env filePath params w /.
Arguments commit env tx w /.
Arguments checkIn env w /.

Ltac step :=
  cbn [bind emit ret fatal panic lift when get_store set_store get_miner
       set_miner history pidExists openProcess commit checkIn
       store thisMiner trace fst snd negb].

Tactic Notation "step" "in" hyp(H) :=
  cbn [bind emit ret fatal panic lift when get_store set_store get_miner
       set_miner history pidExists openProcess commit checkIn
       store thisMiner trace fst snd negb] in H.

(** ** C2: an empty join *)

(** C2. Without a sample of the miner, or with every combination marked "do
    not use", the join has no row; with no row in the join the selector ends
    with the fatal "no viable optimization", and that ends the program: an iteration of the
    loop that is due for a re-optimization stops there, after the query and
    before any process or database action, and so does the start of [main]
    once the miner is found and the first transaction committed. *)
Theorem no_scorable_row_is_fatal (env : Env) (config : Config) (n : nat) :
  (forall db minerID,
     filter (fun s => stat_miner_id s =? minerID)%N (miner_stats db) = [] \/
     (forall c, In c (miner_software_algos db) -> do_not_use c = Some true) ->
     Selector.joined_rows db minerID = []) /\
  (forall db minerID,
     Selector.joined_rows db minerID = [] ->
     Selector.getBestSoftwareAlgo db minerID (UseEstimates config) =
       Fatal NoViableOptimization) /\
  (forall minerID st w,
     Selector.joined_rows (store w) minerID = [] ->
     optimization_due config st = Ret true ->
     run_loop (S n) env config minerID st w =
       (mkWorld (store w) (thisMiner w) (trace w ++ [ESelect]),
        Fatal NoViableOptimization)) /\
  (forall w,
     let tx := fst (VerifyMiner env (store w) (MinerName config)) in
     let minerID := snd (VerifyMiner env (store w) (MinerName config)) in
     let miner := find_miner tx minerID in
     miner <> Miner_zero ->
     CommitSucceeds env (trace w ++ [EBegin]) = true ->
     Selector.joined_rows tx minerID = [] ->
     main n env config w =
       (mkWorld tx miner (trace w ++ [EBegin; ECommit true; ESelect]),
        Fatal NoViableOptimization)).
Proof.
  split; [|split; [|split]].
  - intros db minerID [H|H];
      [now apply no_samples_no_rows | now apply all_ineligible_no_rows].
  - intros db minerID He. now apply getBestSoftwareAlgo_empty.
  - intros minerID st w He Hdue.
    cbn [run_loop]. unfold loop_body, reoptimize, select. rewrite Hdue. step.
    rewrite getBestSoftwareAlgo_empty by exact He. reflexivity.
  - intros w tx minerID miner Hm Hc He.
    unfold main, startup. step. fold tx.
    destruct (VerifyMiner env (store w) (MinerName config)) as [tx' id'] eqn:Hv.
    simpl in tx, minerID. subst tx minerID. step. fold miner.
    destruct (Miner_eq_dec Miner_zero miner) as [Heq|_]; [congruence|].
    step. rewrite Hc. step. unfold select. step.
    rewrite getBestSoftwareAlgo_empty by exact He. flat. reflexivity.
Qed.

Lemma no_scorable_row_is_fatal_witness :
  Selector.joined_rows Sample.no_stats_db 1 = [] /\
  optimization_due Sample.config Sample.due = Ret true /\
  snd (run_loop 1 Sample.steady Sample.config 1 Sample.due
         (mkWorld Sample.no_stats_db Sample.rig [])) = Fatal NoViableOptimization.
Proof.
  split; [reflexivity|]. split; [reflexivity|].
  rewrite (proj1 (proj2 (proj2 (no_scorable_row_is_fatal Sample.steady Sample.config 0)))
             1%N Sample.due (mkWorld Sample.no_stats_db Sample.rig [])
             eq_refl eq_refl).
  reflexivity.
Defined.

(** ** C3: the kill-and-retry loop *)

Lemma killLoop_never_dies (env : Env) (config : Config) (proc : Z) :
  (forall h, PidExists env h (Go.int32 proc) = true) ->
  forall (k fuel : nat) (timesKilled : Z) (w : World),
    timesKilled = (maxKillNumber - Z.of_nat k)%Z ->
    (0 <= timesKilled)%Z ->
    (k < fuel)%nat ->
    killLoop fuel env config proc true timesKilled w =
      (mkWorld (store w) (thisMiner w)
         (trace w ++ List.concat (repeat (retry_round proc) k) ++ unkillable_notice config),
       Fatal Unkillable).
Proof.
  intros Halive. unfold maxKillNumber.
  induction k as [|k IH]; intros fuel t w Ht Hpos Hfuel;
    (destruct fuel as [|fuel]; [lia|]); cbn [killLoop].
  - rewrite int_add_small by lia.
    unfold maxKillNumber, unkillable_notice.
    destruct (1000 <? t + 1)%Z eqn:E; [|apply Z.ltb_ge in E; lia].
    destruct w as [s m h].
    destruct (0 <? Go.len (EmailServer config))%Z; step; flat;
      rewrite ?app_nil_r; reflexivity.
  - rewrite int_add_small by lia.
    unfold maxKillNumber.
    destruct (1000 <? t + 1)%Z eqn:E; [apply Z.ltb_lt in E; lia|].
    step. rewrite Halive. step.
    rewrite (IH fuel (t + 1)%Z) by lia.
    step. f_equal. f_equal. flat. reflexivity.
Qed.

(** C3. Against a process that every probe reports alive, [Terminate] kills
    and waits once, then runs the kill, wait, sleep-10-seconds, probe round
    exactly [maxKillNumber] = 1000 times, then sends the notification when an
    e-mail server is configured, and ends the program with the fatal
    "unable to close inferior process". *)
Theorem terminate_gives_up_after_1000 (env : Env) (config : Config) (proc : Z) (w : World) :
  (forall h, PidExists env h (Go.int32 proc) = true) ->
  Terminate env config proc w =
    (mkWorld (store w) (thisMiner w)
       (trace w ++
        [EKill proc; EWait proc; EPidExists (Go.int32 proc) true] ++
        List.concat (repeat (retry_round proc) 1000) ++
        unkillable_notice config),
     Fatal Unkillable).
Proof.
  intros Halive. unfold Terminate. step. rewrite Halive. step.
  rewrite (killLoop_never_dies env config proc Halive 1000 _ 0%Z);
    [| reflexivity | lia | unfold maxKillNumber; lia].
  step. f_equal. f_equal. flat. reflexivity.
Qed.

Lemma terminate_gives_up_after_1000_witness :
  (forall h, PidExists Sample.steady h (Go.int32 4242) = true) /\
  snd (Terminate Sample.steady Sample.config 4242 Sample.world) = Fatal Unkillable.
Proof.
  assert (forall h, PidExists Sample.steady h (Go.int32 4242) = true) as H
    by (intros h; reflexivity).
  split; [exact H|].
  rewrite (terminate_gives_up_after_1000 Sample.steady Sample.config 4242 Sample.world H).
  reflexivity.
Defined.

(** ** The builder, case by case *)

(** Destruct the innermost stuck test of a hypothesis. *)
Ltac case_on H :=
  match type of H with
  | context [if ?c then _ else _] =>
      lazymatch c with
      | context [if _ then _ else _] => fail
      | context [match _ with _ => _ end] => fail
      | _ => destruct c eqn:?
      end
  | context [match ?c with _ => _ end] =>
      lazymatch c with
      | context [if _ then _ else _] => fail
      | context [match _ with _ => _ end] => fail
      | _ => destruct c eqn:?
      end
  end.

Lemma changeAlgoGetParams_body_effect env best config w w1 out :
  changeAlgoGetParams_body env best config w = (w1, out) ->
  exists cs,
    trace w1 = trace w ++ EBegin :: cs /\
    Forall (fun e => builder_event e = true) cs /\
    writes_in_transaction true cs = true /\
    ((store w1 = store w /\ ~ In (ECommit true) cs /\ forall p, out <> Ret p) \/
     (exists p cs', out = Ret p /\ cs = cs' ++ [ECommit true] /\
                    store w1 = SaveMiner (thisMiner w1) (store w))).
Proof.
  unfold changeAlgoGetParams_body. intros H. step in H.
  repeat (case_on H; cbn [orb] in H; step in H);
    injection H as <- <-; step; flat;
    eexists; (split; [reflexivity|]); (split; [solve [repeat constructor]|]);
    (split; [reflexivity|]);
    first
      [ left; split; [reflexivity|];
        split; [simpl; intuition discriminate | intros; discriminate]
      | right; eexists;
        first [ refine (ex_intro _ [_] _); split; [reflexivity|]; split; reflexivity
              | refine (ex_intro _ [_; _] _); split; [reflexivity|]; split; reflexivity ] ].
Qed.

Lemma writes_in_transaction_rollback (cs : list Event) (open : bool) :
  writes_in_transaction open (cs ++ [ERollback]) = writes_in_transaction open cs.
Proof.
  revert open. induction cs as [|e cs IH]; intros open; simpl.
  - reflexivity.
  - destruct e; rewrite ?IH; reflexivity.
Qed.

(** What the builder leaves behind, whatever the environment answers: its
    events are those of one transaction, every write lies inside it, and the
    store changes only through a successful commit. A panic never leaves the
    function. *)
Lemma changeAlgoGetParams_effect env best config w w' out :
  changeAlgoGetParams env best config w = (w', out) ->
  exists cs,
    trace w' = trace w ++ EBegin :: cs /\
    Forall (fun e => builder_event e = true) cs /\
    writes_in_transaction true cs = true /\
    ((store w' = store w /\ ~ In (ECommit true) cs) \/
     (exists p cs', out = Ret p /\ cs = cs' ++ [ECommit true] /\
                    store w' = SaveMiner (thisMiner w') (store w))) /\
    (forall p, out <> Panic p).
Proof.
  unfold changeAlgoGetParams. intros H.
  destruct (changeAlgoGetParams_body env best config w) as [w1 o1] eqn:Hb.
  apply changeAlgoGetParams_body_effect in Hb.
  destruct Hb as (cs & Ht & Hall & Hw & Hst).
  destruct o1 as [a|e|p|].
  - injection H as <- <-. exists cs. repeat split; try assumption.
    + destruct Hst as [(Hs & Hn & _)|Hs]; [left; now split | right; exact Hs].
    + discriminate.
  - injection H as <- <-. exists cs. repeat split; try assumption.
    + destruct Hst as [(Hs & Hn & _)|Hs]; [left; now split | right; exact Hs].
    + discriminate.
  - step in H. injection H as <- <-. step.
    exists (cs ++ [ERollback]). rewrite Ht. repeat split.
    + now rewrite <- app_assoc.
    + apply Forall_app. split; [assumption | repeat constructor].
    + now rewrite writes_in_transaction_rollback.
    + destruct Hst as [(Hs & Hn & _)|(q & cs' & Hq & _)]; [|discriminate].
      left. split; [exact Hs|].
      intros Hin. apply in_app_or in Hin. destruct Hin as [Hin|[Hin|[]]];
        [now apply Hn | discriminate].
    + discriminate.
  - injection H as <- <-. exists cs. repeat split; try assumption.
    + destruct Hst as [(Hs & Hn & _)|Hs]; [left; now split | right; exact Hs].
    + discriminate.
Qed.

(** ** The supervisor, for every behaviour of the process *)

Lemma killLoop_effect env config p :
  forall fuel b t w w' out,
    killLoop fuel env config p b t w = (w', out) ->
    store w' = store w /\ thisMiner w' = thisMiner w /\
    exists ks,
      trace w' = trace w ++ ks /\
      Forall (fun e => supervisor_event e = true) ks /\
      (out = Ret tt ->
       (b = false /\ ks = []) \/
       exists ks', ks = ks' ++ [EPidExists (Go.int32 p) false]).
Proof.
  induction fuel as [|fuel IH]; intros b t w w' out H.
  - destruct b; cbn [killLoop] in H; injection H as <- <-;
      (split; [reflexivity|]); (split; [reflexivity|]);
      exists []; rewrite app_nil_r; (split; [reflexivity|]);
      (split; [constructor|]).
    + discriminate.
    + intros _. left. now split.
  - destruct b; cbn [killLoop] in H.
    + destruct (maxKillNumber <? Go.int_add t 1)%Z.
      * destruct (0 <? Go.len (EmailServer config))%Z; step in H;
          injection H as <- <-; step;
          (split; [reflexivity|]); (split; [reflexivity|]).
        -- exists [ESendEmail unkillable_subject].
           split; [reflexivity|]. split; [repeat constructor | discriminate].
        -- exists []. rewrite app_nil_r.
           split; [reflexivity|]. split; [constructor | discriminate].
      * step in H.
        match type of H with
        | killLoop _ _ _ _ ?b' _ ?w1 = _ =>
            remember b' as alive eqn:Halive; remember w1 as wr eqn:Hwr
        end.
        apply IH in H. destruct H as (Hs & Hm & ks & Ht & Hall & Hret).
        subst wr. step in Hs. step in Hm. step in Ht.
        split; [exact Hs|]. split; [exact Hm|].
        exists ([EKill p; EWait p; ESleep 10; EPidExists (Go.int32 p) alive] ++ ks).
        split; [rewrite Ht; flat; reflexivity|].
        split; [apply Forall_app; split; [repeat constructor | exact Hall]|].
        intros Hout. right. destruct (Hret Hout) as [[Hb ->]|[ks' ->]].
        -- exists [EKill p; EWait p; ESleep 10]. rewrite Hb. reflexivity.
        -- exists ([EKill p; EWait p; ESleep 10; EPidExists (Go.int32 p) alive] ++ ks').
           now rewrite <- app_assoc.
    + injection H as <- <-.
      split; [reflexivity|]. split; [reflexivity|].
      exists []. rewrite app_nil_r. split; [reflexivity|].
      split; [constructor|]. intros _. left. now split.
Qed.

(** [Terminate] touches neither the store nor the miner record, launches
    nothing, and returns only after a probe of the process answered
    not-alive. *)
Lemma Terminate_effect env config p w w' out :
  Terminate env config p w = (w', out) ->
  store w' = store w /\ thisMiner w' = thisMiner w /\
  exists ks,
    trace w' = trace w ++ ks /\
    Forall (fun e => supervisor_event e = true) ks /\
    (out = Ret tt -> exists ks', ks = ks' ++ [EPidExists (Go.int32 p) false]).
Proof.
  unfold Terminate. intros H. step in H.
  match type of H with
  | killLoop _ _ _ _ ?b' _ ?w1 = _ =>
      remember b' as alive eqn:Halive; remember w1 as wr eqn:Hwr
  end.
  apply killLoop_effect in H. destruct H as (Hs & Hm & ks & Ht & Hall & Hret).
  subst wr. step in Hs. step in Hm. step in Ht.
  split; [exact Hs|]. split; [exact Hm|].
  exists ([EKill p; EWait p; EPidExists (Go.int32 p) alive] ++ ks).
  split; [rewrite Ht; flat; reflexivity|].
  split; [apply Forall_app; split; [repeat constructor | exact Hall]|].
  intros Hout. destruct (Hret Hout) as [[Hb ->]|[ks' ->]].
  - exists [EKill p; EWait p]. rewrite Hb. reflexivity.
  - exists ([EKill p; EWait p; EPidExists (Go.int32 p) alive] ++ ks').
    now rewrite <- app_assoc.
Qed.

(** The budget of [Terminate] is never used up: the retry loop ends by
    itself, with the process gone or with the fatal exit. *)
Lemma killLoop_fuel_suffices env config p :
  forall fuel b t w,
    (0 <= t <= maxKillNumber)%Z ->
    (maxKillNumber + 1 - t <= Z.of_nat fuel)%Z ->
    snd (killLoop fuel env config p b t w) <> OutOfFuel.
Proof.
  unfold maxKillNumber.
  induction fuel as [|fuel IH]; intros b t w Ht Hf; destruct b; cbn [killLoop];
    try discriminate.
  - lia.
  - rewrite int_add_small by lia. unfold maxKillNumber.
    destruct (1000 <? t + 1)%Z eqn:E.
    + destruct (0 <? Go.len (EmailServer config))%Z; discriminate.
    + apply Z.ltb_ge in E. step. apply IH; lia.
Qed.

Lemma Terminate_total env config p w :
  snd (Terminate env config p w) <> OutOfFuel.
Proof.
  unfold Terminate. step.
  apply killLoop_fuel_suffices; unfold maxKillNumber; lia.
Qed.

(** ** C4: a switch launches only after the old process is seen dead *)






(** ** C5: the respawn after an unplanned exit *)

Lemma last_launch_app (h k : list Event) :
  last_launch (h ++ k) =
    match last_launch k with
    | Some spec => Some spec
    | None => last_launch h
    end.
Proof.
  induction h as [|e h IH]; simpl.
  - now destruct (last_launch k).
  - rewrite IH. now destruct (last_launch k).
Qed.

(** The sleeping branch when the probe answers alive: a heartbeat. *)
Lemma tick_alive env st w :
  PidExists env (trace w ++ [ESleep processCheckTime]) (Go.int32 (proc st)) = true ->
  let seen := trace w ++ [ESleep processCheckTime; EPidExists (Go.int32 (proc st)) true] in
  let miner := with_check_in (thisMiner w) (Now env seen) in
  tick env st w =
    (mkWorld (SaveMiner miner (store w)) miner (seen ++ [EDbSave miner]),
     Ret (mkLoopState (params st) (filePath st) (proc st)
            (Go.int_add (secondsSlept st) processCheckTime))).
Proof.
  intros Halive. unfold tick. step. cbn [proc params filePath secondsSlept].
  rewrite Halive. step. flat. reflexivity.
Qed.

(** The sleeping branch when the probe answers not-alive: a respawn. *)
Lemma tick_dead env st w :
  PidExists env (trace w ++ [ESleep processCheckTime]) (Go.int32 (proc st)) = false ->
  let before :=
    trace w ++ [ESleep processCheckTime; EPidExists (Go.int32 (proc st)) false;
                EKill (proc st); EWait (proc st)] in
  let started := StartProcess env before (filePath st) (params st) in
  tick env st w =
    (mkWorld (store w) (thisMiner w)
       (before ++ [EStartProcess (filePath st) (params st) started]),
     match started with
     | Some proc' =>
         Ret (mkLoopState (params st) (filePath st) proc'
                (Go.int_add (secondsSlept st) processCheckTime))
     | None => Fatal StartFailed
     end).
Proof.
  intros Hdead. unfold tick. step. cbn [proc params filePath secondsSlept].
  rewrite Hdead. step. flat.
  destruct (StartProcess env _ (filePath st) (params st)); reflexivity.
Qed.

(** C5. In an iteration that is not due for a re-optimization, when the probe
    after the 30-second sleep finds the process gone, the same iteration
    kills, waits and launches again with the path and the argument list of
    the most recent launch; the store and the miner record (its active
    combination included) are left as they were, and the selector is not
    run. When the operating system starts the process the loop goes on with
    the same launch specification, otherwise the program ends. *)
Theorem respawn_keeps_launch_spec env config minerID st w path args :
  holds_last_launch st w ->
  last_launch (trace w) = Some (path, args) ->
  optimization_due config st = Ret false ->
  PidExists env (trace w ++ [ESleep processCheckTime]) (Go.int32 (proc st)) = false ->
  let before :=
    trace w ++ [ESleep processCheckTime; EPidExists (Go.int32 (proc st)) false;
                EKill (proc st); EWait (proc st)] in
  let started := StartProcess env before path args in
  loop_body env config minerID st w =
    (mkWorld (store w) (thisMiner w) (before ++ [EStartProcess path args started]),
     match started with
     | Some proc' =>
         Ret (mkLoopState args path proc'
                (Go.int_add (secondsSlept st) processCheckTime))
     | None => Fatal StartFailed
     end).
Proof.
  intros Hinv Hlast Hdue Hdead before started.
  unfold holds_last_launch in Hinv. rewrite Hinv in Hlast.
  injection Hlast as Hp Ha.
  unfold loop_body. rewrite Hdue. step.
  rewrite (tick_dead env st w Hdead). subst before started.
  rewrite Hp, Ha. reflexivity.
Qed.

Lemma openProcess_effect env path args w w' out :
  openProcess env path args w = (w', out) ->
  store w' = store w /\ thisMiner w' = thisMiner w /\
  trace w' = trace w ++ [EStartProcess path args (StartProcess env (trace w) path args)] /\
  (forall p, out = Ret p -> StartProcess env (trace w) path args = Some p).
Proof.
  intros H. step in H.
  destruct (StartProcess env (trace w) path args); injection H as <- <-;
    repeat split; intros p Hp; congruence.
Qed.

(** The launch specification the loop carries is the one of the most recent
    launch: [startup] sets this up and every iteration keeps it. *)
Lemma reoptimize_holds_last_launch env config minerID st w w' st' :
  holds_last_launch st w ->
  reoptimize env config minerID st w = (w', Ret st') ->
  holds_last_launch st' w'.
Proof.
  unfold holds_last_launch, reoptimize, select. intros Hinv H. step in H.
  destruct (Selector.getBestSoftwareAlgo (store w) minerID (UseEstimates config))
    as [best| | |]; try discriminate.
  step in H. cbn [proc secondsSlept params filePath] in H.
  destruct (negb (msa_ID best =? MinerSoftwareAlgoID (thisMiner w))%N).
  - step in H.
    match type of H with
    | context [Terminate env config (proc st) ?w1] =>
        destruct (Terminate env config (proc st) w1) as [w2 [[]| | |]]; try discriminate
    end.
    destruct (changeAlgoGetParams env best config w2) as [w3 [pf| | |]];
      try discriminate.
    step in H.
    destruct (StartProcess env (trace w3) (snd pf) (fst pf)); [|discriminate].
    injection H as <- <-. step. rewrite last_launch_app. reflexivity.
  - injection H as <- <-. step. now rewrite last_launch_app.
Qed.

Lemma tick_holds_last_launch env st w w' st' :
  holds_last_launch st w ->
  tick env st w = (w', Ret st') ->
  holds_last_launch st' w'.
Proof.
  unfold holds_last_launch. intros Hinv H.
  destruct (PidExists env (trace w ++ [ESleep processCheckTime]) (Go.int32 (proc st)))
    eqn:Hp.
  - rewrite (tick_alive env st w Hp) in H. injection H as <- <-. step.
    rewrite !last_launch_app. exact Hinv.
  - rewrite (tick_dead env st w Hp) in H.
    destruct (StartProcess env _ (filePath st) (params st)); [|discriminate].
    injection H as <- <-. step. rewrite last_launch_app. reflexivity.
Qed.

Lemma loop_body_holds_last_launch env config minerID st w w' st' :
  holds_last_launch st w ->
  loop_body env config minerID st w = (w', Ret st') ->
  holds_last_launch st' w'.
Proof.
  unfold loop_body. intros Hinv H.
  destruct (optimization_due config st) as [[|]| | |]; step in H; try discriminate.
  - eapply reoptimize_holds_last_launch; eauto.
  - eapply tick_holds_last_launch; eauto.
Qed.

Lemma startup_holds_last_launch env config w w' minerID st :
  startup env config w = (w', Ret (minerID, st)) ->
  holds_last_launch st w'.
Proof.
  unfold startup, holds_last_launch, select. intros H. step in H.
  destruct (VerifyMiner env (store w) (MinerName config)) as [tx id].
  step in H.
  destruct (Miner_eq_dec Miner_zero _); [discriminate|]. step in H.
  destruct (CommitSucceeds env (trace w ++ [EBegin])); step in H; [|discriminate].
  destruct (Selector.getBestSoftwareAlgo tx id (UseEstimates config)) as [best| | |];
    try discriminate.
  step in H.
  match type of H with
  | context [changeAlgoGetParams env best config ?w1] =>
      destruct (changeAlgoGetParams env best config w1) as [w3 [pf| | |]];
        try discriminate
  end.
  step in H.
  destruct (StartProcess env (trace w3) (snd pf) (fst pf)); [|discriminate].
  injection H as <- <- <-. step. rewrite last_launch_app. reflexivity.
Qed.

Lemma respawn_keeps_launch_spec_witness :
  let r := startup Sample.mortal Sample.config Sample.world in
  let w := fst r in
  let st := mkLoopState (params Sample.launched) "/bin/worker" 4243 0 in
  snd r = Ret (1%N, st) /\
  store (fst (loop_body Sample.mortal Sample.config 1 st w)) = store w /\
  thisMiner (fst (loop_body Sample.mortal Sample.config 1 st w)) = thisMiner w /\
  snd (loop_body Sample.mortal Sample.config 1 st w) =
    Ret (mkLoopState (params Sample.launched) "/bin/worker" 4243 30).
Proof.
  intros r w st.
  assert (snd r = Ret (1%N, st)) as Hr by reflexivity.
  split; [exact Hr|].
  assert (holds_last_launch st w) as Hinv.
  { apply (startup_holds_last_launch Sample.mortal Sample.config Sample.world w 1%N st).
    rewrite (surjective_pairing (startup _ _ _)). fold r. now rewrite Hr. }
  rewrite (respawn_keeps_launch_spec Sample.mortal Sample.config 1 st w
             "/bin/worker" (params Sample.launched) Hinv eq_refl eq_refl eq_refl).
  cbn [fst snd store thisMiner]. split; [reflexivity|]. split; reflexivity.
Defined.

(** ** C6: the schedule of the loop *)

Lemma reoptimize_shape env config minerID st w w' out :
  reoptimize env config minerID st w = (w', out) ->
  (exists rest, trace w' = trace w ++ ESelect :: rest) /\
  (forall st', out = Ret st' -> secondsSlept st' = 0%Z).
Proof.
  unfold reoptimize, select. intros H. step in H.
  destruct (Selector.getBestSoftwareAlgo (store w) minerID (UseEstimates config))
    as [best| | |];
    try (injection H as <- <-; split; [now exists [] | discriminate]).
  step in H. cbn [proc secondsSlept params filePath] in H.
  destruct (negb (msa_ID best =? MinerSoftwareAlgoID (thisMiner w))%N).
  2: { injection H as <- <-. split; [now exists []|].
       intros st' Hst. now injection Hst as <-. }
  step in H.
  match type of H with
  | context [Terminate env config (proc st) ?w1] =>
      destruct (Terminate env config (proc st) w1) as [w2 o2] eqn:HT
  end.
  apply Terminate_effect in HT. destruct HT as (_ & _ & ks & Hks & _). step in Hks.
  destruct o2 as [[]| | |];
    try (injection H as <- <-; split;
         [exists ks; rewrite Hks; flat; reflexivity | discriminate]).
  destruct (changeAlgoGetParams env best config w2) as [w3 o3] eqn:HC.
  apply changeAlgoGetParams_effect in HC. destruct HC as (cs & Hcs & _).
  destruct o3 as [pf| | |];
    try (injection H as <- <-; split;
         [exists (ks ++ EBegin :: cs); rewrite Hcs, Hks; flat; reflexivity
         | discriminate]).
  step in H.
  destruct (StartProcess env (trace w3) (snd pf) (fst pf)) as [p|] eqn:Hs;
    injection H as <- <-; step; (split; [|try discriminate]).
  - eexists. rewrite Hcs, Hks. flat. reflexivity.
  - intros st' Hst. now injection Hst as <-.
  - eexists. rewrite Hcs, Hks. flat. reflexivity.
Qed.

Lemma tick_shape env st w :
  exists alive rest,
    trace (fst (tick env st w)) =
      trace w ++ ESleep 30 :: EPidExists (Go.int32 (proc st)) alive :: rest /\
    ~ In ESelect rest /\
    (forall st', snd (tick env st w) = Ret st' ->
                 secondsSlept st' = Go.int_add (secondsSlept st) 30) /\
    (alive = true ->
       rest = [EDbSave (thisMiner (fst (tick env st w)))] /\
       exists st', snd (tick env st w) = Ret st').
Proof.
  destruct (PidExists env (trace w ++ [ESleep processCheckTime]) (Go.int32 (proc st)))
    eqn:Hp.
  - rewrite (tick_alive env st w Hp). cbn [fst snd trace thisMiner].
    exists true. eexists. split; [flat; reflexivity|]. split.
    + intros [Hin|[]]. discriminate.
    + split; [intros st' Hst; now injection Hst as <- |].
      intros _. split; [reflexivity | eexists; reflexivity].
  - rewrite (tick_dead env st w Hp). cbn [fst snd trace thisMiner].
    exists false. eexists. split; [flat; reflexivity|]. split.
    + intros [Hin|[Hin|[Hin|[]]]]; discriminate.
    + split; [|discriminate].
      intros st' Hst.
      destruct (StartProcess env _ (filePath st) (params st)); [|discriminate].
      now injection Hst as <-.
Qed.

(** The test of the loop, for a period that is not zero and a counter that
    has not wrapped around. *)
Lemma optimization_due_spec config st :
  OptimizationCheckTime config <> 0%Z ->
  (0 <= secondsSlept st)%Z ->
  (optimization_due config st = Ret true /\
   secondsSlept st <> 0%Z /\ (OptimizationCheckTime config | secondsSlept st)%Z) \/
  (optimization_due config st = Ret false /\
   ~ (secondsSlept st <> 0%Z /\ (OptimizationCheckTime config | secondsSlept st)%Z)).
Proof.
  intros Hp Hs. unfold optimization_due, Go.int_rem.
  destruct (0 <? secondsSlept st)%Z eqn:Hpos.
  - apply Z.ltb_lt in Hpos.
    destruct (OptimizationCheckTime config =? 0)%Z eqn:Hz;
      [apply Z.eqb_eq in Hz; contradiction|].
    destruct (Z.rem (secondsSlept st) (OptimizationCheckTime config) =? 0)%Z eqn:Hr.
    + left. apply Z.eqb_eq in Hr. apply Z.rem_divide in Hr; [|exact Hp].
      repeat split; [lia | exact Hr].
    + right. split; [reflexivity|]. intros [_ Hd].
      apply Z.rem_divide in Hd; [|exact Hp]. apply Z.eqb_neq in Hr. contradiction.
  - apply Z.ltb_ge in Hpos. right. split; [reflexivity|]. intros [Hn _]. lia.
Qed.

Lemma loop_schedule_holds env config minerID st w :
  OptimizationCheckTime config <> 0%Z ->
  (0 <= secondsSlept st)%Z ->
  Claim.loop_schedule env config minerID st w.
Proof.
  intros Hp Hs. unfold Claim.loop_schedule.
  destruct (optimization_due_spec config st Hp Hs) as [(Hd & Hdue)|(Hd & Hnot)];
    unfold loop_body; rewrite Hd; step.
  - split; [|intros Hn; contradiction].
    intros _.
    destruct (reoptimize env config minerID st w) as [w' out] eqn:Hr.
    apply reoptimize_shape in Hr. exact Hr.
  - split; [intros Hn; contradiction|].
    intros _. apply tick_shape.
Qed.

Lemma optimization_due_600 config st :
  OptimizationCheckTime config = 600%Z ->
  (0 <= secondsSlept st <= 600)%Z ->
  optimization_due config st = Ret (secondsSlept st =? 600)%Z.
Proof.
  intros Hp Hs. unfold optimization_due, Go.int_rem. rewrite Hp.
  destruct (0 <? secondsSlept st)%Z eqn:Hpos.
  - apply Z.ltb_lt in Hpos. cbn [Z.eqb].
    destruct (secondsSlept st =? 600)%Z eqn:He.
    + apply Z.eqb_eq in He. rewrite He. reflexivity.
    + apply Z.eqb_neq in He. rewrite Z.rem_small by lia.
      destruct (secondsSlept st =? 0)%Z eqn:Hz; [apply Z.eqb_eq in Hz; lia|].
      reflexivity.
  - apply Z.ltb_ge in Hpos.
    destruct (secondsSlept st =? 600)%Z eqn:He; [apply Z.eqb_eq in He; lia|].
    reflexivity.
Qed.

(** [n] ticks with the process alive, before the counter reaches the period. *)
Lemma alive_ticks env config minerID :
  (forall h p, PidExists env h p = true) ->
  OptimizationCheckTime config = 600%Z ->
  forall (n k : nat) st w,
    secondsSlept st = (30 * Z.of_nat k)%Z ->
    (k + n <= 20)%nat ->
    exists w' st' h,
      run_loop n env config minerID st w = (w', Ret st') /\
      trace w' = trace w ++ h /\
      heartbeats h = n /\ ~ In ESelect h /\
      secondsSlept st' = (30 * Z.of_nat (k + n))%Z.
Proof.
  intros Halive Hp. induction n as [|n IH]; intros k st w Hs Hk.
  - exists w, st, []. cbn [run_loop]. rewrite app_nil_r, Nat.add_0_r.
    repeat split; auto.
  - cbn [run_loop]. unfold loop_body.
    rewrite (optimization_due_600 config st Hp) by lia.
    destruct (secondsSlept st =? 600)%Z eqn:He; [apply Z.eqb_eq in He; lia|].
    step. rewrite (tick_alive env st w (Halive _ _)).
    match goal with
    | |- context [run_loop n env config minerID ?s ?v] =>
        destruct (IH (S k) s v) as (w' & st' & h & Hrun & Ht & Hb & Hn & Hs')
    end.
    { cbn [secondsSlept]. rewrite int_add_small; unfold processCheckTime; lia. }
    { lia. }
    exists w', st'. eexists. split; [exact Hrun|].
    split; [rewrite Ht; cbn [trace]; flat; reflexivity|].
    split; [unfold heartbeats in *; cbn [filter List.length]; now rewrite Hb|].
    split.
    + intros [Hin|[Hin|[Hin|Hin]]]; try discriminate. now apply Hn.
    + rewrite Hs'. f_equal. lia.
Qed.

Lemma alive_scenario_holds env config minerID st w :
  (forall h p, PidExists env h p = true) ->
  OptimizationCheckTime config = 600%Z ->
  secondsSlept st = 0%Z ->
  Claim.alive_scenario env config minerID st w.
Proof.
  intros Halive Hp Hs. split.
  - destruct (alive_ticks env config minerID Halive Hp 9 0 st w)
      as (w9 & st9 & h9 & Hrun & Ht & Hb & Hn & Hs9); [rewrite Hs; reflexivity | lia |].
    exists w9, st9, h9. repeat split; assumption.
  - destruct (alive_ticks env config minerID Halive Hp 20 0 st w)
      as (w20 & st20 & h20 & Hrun & Ht & Hb & Hn & Hs20);
      [rewrite Hs; reflexivity | lia |].
    exists w20, st20, h20. repeat split; try assumption.
    cbn in Hs20.
    destruct (loop_schedule_holds env config minerID st20 w20) as [Hdue _];
      [rewrite Hp; discriminate | lia |].
    apply Hdue. split; [lia|]. rewrite Hp, Hs20. exists 1%Z. reflexivity.
Qed.

(** C6. For an optimization-check period that is not zero and a
    slept-seconds counter that has not wrapped around, every iteration of the
    loop follows the schedule: it runs the selector first, and leaves the
    counter at zero, exactly when the counter is nonzero and a multiple of
    the period; otherwise it sleeps 30 seconds, adds 30 to the counter,
    probes the process and, when the probe answers alive, saves a heartbeat
    and goes on, without running the selector. With a period of 600 and a
    process that every probe reports alive, from a counter of zero, 9
    iterations give 9 heartbeats and no selection, 20 iterations bring the
    counter to 600 without a selection, and the next iteration runs the
    selector. With a period of zero, an iteration that starts with a positive
    counter divides by zero in the test of the loop and panics, with no
    sleep, no probe and no selection. *)
Theorem loop_follows_schedule env config minerID st w :
  (OptimizationCheckTime config <> 0%Z ->
   (0 <= secondsSlept st)%Z ->
   Claim.loop_schedule env config minerID st w) /\
  ((forall h p, PidExists env h p = true) ->
   OptimizationCheckTime config = 600%Z ->
   secondsSlept st = 0%Z ->
   Claim.alive_scenario env config minerID st w) /\
  (OptimizationCheckTime config = 0%Z ->
   (0 < secondsSlept st)%Z ->
   loop_body env config minerID st w = (w, Panic IntegerDivideByZero)).
Proof.
  split; [apply loop_schedule_holds | split; [apply alive_scenario_holds|]].
  intros Hp Hs. unfold loop_body, optimization_due, Go.int_rem.
  apply Z.ltb_lt in Hs. rewrite Hs, Hp. reflexivity.
Qed.

Lemma loop_follows_schedule_witness :
  Claim.loop_schedule Sample.steady Sample.config 1 Sample.due Sample.world /\
  Claim.alive_scenario Sample.steady Sample.config 1 Sample.launched Sample.world /\
  loop_body Sample.steady Sample.config_period_0 1 Sample.slept_30 Sample.world =
    (Sample.world, Panic IntegerDivideByZero).
Proof.
  split; [|split].
  - apply (proj1 (loop_follows_schedule Sample.steady Sample.config 1
                    Sample.due Sample.world)).
    + discriminate.
    + discriminate.
  - apply (proj1 (proj2 (loop_follows_schedule Sample.steady Sample.config 1
                           Sample.launched Sample.world))).
    + intros h p. reflexivity.
    + reflexivity.
    + reflexivity.
  - apply (proj2 (proj2 (loop_follows_schedule Sample.steady Sample.config_period_0 1
                           Sample.slept_30 Sample.world))).
    + reflexivity.
    + reflexivity.
Defined.

(** With a period of zero the schedule of the specification does not hold:
    30 is not a multiple of 0, so the iteration should sleep and probe, and
    it panics instead. *)
Lemma zero_period_breaks_schedule :
  ~ Claim.loop_schedule Sample.steady Sample.config_period_0 1 Sample.slept_30
      Sample.world.
Proof.
  unfold Claim.loop_schedule. intros [_ Hsleep].
  destruct Hsleep as (alive & rest & Ht & _).
  - intros [_ [z Hz]]. cbn in Hz. lia.
  - cbn in Ht. discriminate.
Qed.

(** The counter stays non-negative as long as it does not overflow. *)
Lemma loop_body_counter_nonneg env config minerID st w w' st' :
  (0 <= secondsSlept st)%Z ->
  (secondsSlept st + 30 < 2 ^ 63)%Z ->
  loop_body env config minerID st w = (w', Ret st') ->
  (0 <= secondsSlept st')%Z.
Proof.
  intros Hs Hb H. unfold loop_body in H.
  destruct (optimization_due config st) as [[|]| | |]; step in H; try discriminate.
  - apply reoptimize_shape in H. destruct H as [_ H]. rewrite (H st' eq_refl). lia.
  - destruct (tick_shape env st w) as (alive & rest & _ & _ & Hadd & _).
    rewrite H in Hadd. rewrite (Hadd st' eq_refl), int_add_small; lia.
Qed.

(** ** C7: transactions *)

Lemma session_app (h k : list Event) : session (h ++ k) = session h ++ session k.
Proof. apply flat_map_app. Qed.

Lemma updates_in_transaction_app (a b : list Statement) (open : bool) :
  updates_in_transaction open (a ++ b) =
    updates_in_transaction open a && updates_in_transaction (open_after open a) b.
Proof.
  revert open.
  induction a as [|x a IH]; intros open; cbn [app updates_in_transaction open_after].
  - reflexivity.
  - destruct x; rewrite IH; [reflexivity | apply andb_assoc | reflexivity | reflexivity].
Qed.

Lemma open_after_app (a b : list Statement) (open : bool) :
  open_after open (a ++ b) = open_after (open_after open a) b.
Proof.
  revert open. induction a as [|x a IH]; intros open; cbn [app open_after].
  - reflexivity.
  - destruct x; apply IH.
Qed.

(** Stopping a process sends nothing to the database. *)
Lemma supervisor_session (ks : list Event) :
  Forall (fun e => supervisor_event e = true) ks -> session ks = [].
Proof.
  induction 1 as [|e ks He _ IH]; [reflexivity|].
  destruct e; try discriminate He; exact IH.
Qed.

(** The calls of the builder reach the database one by one. *)
Lemma builder_session (cs : list Event) :
  Forall (fun e => builder_event e = true) cs ->
  forall open,
    updates_in_transaction open (session cs) = writes_in_transaction open cs /\
    (forall cs', cs = cs' ++ [ECommit true] -> open_after open (session cs) = false).
Proof.
  induction 1 as [|e cs He _ IH]; intros open.
  - split; [reflexivity|]. intros [|? ?] Hc; discriminate Hc.
  - assert (forall cs', e :: cs = cs' ++ [ECommit true] ->
              (cs' = [] /\ e = ECommit true /\ cs = []) \/
              exists cs2, cs = cs2 ++ [ECommit true]) as Hlast.
    { intros [|x cs2] Hc; injection Hc as -> ->; [left; now repeat split | right; now exists cs2]. }
    destruct e; try discriminate He;
      change (session (?x :: cs)) with (statements x ++ session cs);
      cbn [statements app updates_in_transaction writes_in_transaction open_after].
    + destruct (IH true) as [-> Hend]. split; [reflexivity|].
      intros cs' Hc. destruct (Hlast cs' Hc) as [(_ & Hx & _)|[cs2 Hc2]];
        [discriminate Hx | now apply (Hend cs2)].
    + destruct (IH open) as [-> Hend]. split; [reflexivity|].
      intros cs' Hc. destruct (Hlast cs' Hc) as [(_ & Hx & _)|[cs2 Hc2]];
        [discriminate Hx | now apply (Hend cs2)].
    + destruct (IH false) as [-> Hend]. split; [reflexivity|].
      intros cs' Hc. destruct (Hlast cs' Hc) as [(_ & _ & ->)|[cs2 Hc2]];
        [reflexivity | now apply (Hend cs2)].
    + destruct (IH false) as [-> Hend]. split; [reflexivity|].
      intros cs' Hc. destruct (Hlast cs' Hc) as [(_ & Hx & _)|[cs2 Hc2]];
        [discriminate Hx | now apply (Hend cs2)].
    + destruct (IH open) as [-> Hend]. split; [reflexivity|].
      intros cs' Hc. destruct (Hlast cs' Hc) as [(_ & Hx & _)|[cs2 Hc2]];
        [discriminate Hx | now apply (Hend cs2)].
Qed.

Lemma transactional_step_refl w closed : transactional_step w w closed.
Proof. exists []. rewrite app_nil_r. repeat split. Qed.

Lemma transactional_step_trans w1 w2 w3 closed :
  transactional_step w1 w2 true -> transactional_step w2 w3 closed ->
  transactional_step w1 w3 closed.
Proof.
  intros (a & Ha & Hua & Hca) (b & Hb & Hub & Hcb).
  exists (a ++ b). split; [rewrite Hb, Ha; now rewrite app_assoc|].
  rewrite session_app, updates_in_transaction_app, open_after_app, (Hca eq_refl), Hua, Hub.
  split; [reflexivity | exact Hcb].
Qed.

Lemma transactional_step_any w w' closed :
  transactional_step w w' true -> transactional_step w w' closed.
Proof.
  intros (a & Ha & Hua & Hca). exists a. split; [exact Ha|]. split; [exact Hua|].
  intros _. now apply Hca.
Qed.

(** Events that send nothing to the database. *)
Lemma transactional_step_quiet w w' evs closed :
  trace w' = trace w ++ evs -> session evs = [] -> transactional_step w w' closed.
Proof.
  intros Ht Hs. exists evs. rewrite Hs. repeat split. exact Ht.
Qed.

(** The builder is one transaction: begun at its first event, closed when
    the function returns, by its commit or by the rollback of the deferred
    call. *)
Lemma changeAlgoGetParams_transactional env best config w w' out :
  changeAlgoGetParams env best config w = (w', out) ->
  transactional_step w w' (returned out).
Proof.
  unfold changeAlgoGetParams. intros H.
  destruct (changeAlgoGetParams_body env best config w) as [w1 o1] eqn:Hb.
  apply changeAlgoGetParams_body_effect in Hb.
  destruct Hb as (cs & Ht & Hall & Hw & Hst).
  destruct (builder_session cs Hall true) as [Hu Hend]. rewrite Hw in Hu.
  destruct o1 as [a|e|p|].
  - injection H as <- <-. exists (EBegin :: cs). split; [exact Ht|].
    split; [exact Hu|]. intros _.
    destruct Hst as [(_ & _ & Hn)|(q & cs' & _ & Hc & _)];
      [exfalso; now apply (Hn a) | now apply (Hend cs')].
  - injection H as <- <-. exists (EBegin :: cs). split; [exact Ht|].
    split; [exact Hu | discriminate].
  - step in H. injection H as <- <-. step.
    exists (EBegin :: cs ++ [ERollback]). rewrite Ht.
    split; [now rewrite <- app_assoc|].
    change (session (EBegin :: cs ++ [ERollback]))
      with ([SqlBegin] ++ session (cs ++ [ERollback])).
    rewrite session_app. cbn [app updates_in_transaction open_after].
    rewrite updates_in_transaction_app, open_after_app, Hu.
    split; [reflexivity|]. intros _. reflexivity.
  - injection H as <- <-. exists (EBegin :: cs). split; [exact Ht|].
    split; [exact Hu | discriminate].
Qed.

Lemma reoptimize_transactional env config minerID st w w' out :
  reoptimize env config minerID st w = (w', out) ->
  transactional_step w w' (returned out).
Proof.
  unfold reoptimize, select. intros H. step in H.
  destruct (Selector.getBestSoftwareAlgo (store w) minerID (UseEstimates config))
    as [best| | |];
    try (injection H as <- <-;
         apply (transactional_step_quiet _ _ [ESelect]); reflexivity).
  step in H. cbn [proc secondsSlept params filePath] in H.
  destruct (negb (msa_ID best =? MinerSoftwareAlgoID (thisMiner w))%N);
    [|injection H as <- <-;
      apply (transactional_step_quiet _ _ [ESelect]); reflexivity].
  step in H.
  match type of H with
  | context [Terminate env config (proc st) ?w1] =>
      destruct (Terminate env config (proc st) w1) as [w2 o2] eqn:HT
  end.
  apply Terminate_effect in HT. destruct HT as (_ & _ & ks & Hks & Hsup & _).
  step in Hks.
  assert (transactional_step w w2 true) as H2.
  { apply (transactional_step_quiet _ _ (ESelect :: ks)).
    - rewrite Hks. flat. reflexivity.
    - change (session (ESelect :: ks)) with (session ks).
      now apply supervisor_session. }
  destruct o2 as [[]| | |];
    try (injection H as <- <-; apply transactional_step_any; exact H2).
  destruct (changeAlgoGetParams env best config w2) as [w3 o3] eqn:HC.
  apply changeAlgoGetParams_transactional in HC.
  destruct o3 as [pf| | |];
    try (injection H as <- <-;
         exact (transactional_step_trans w w2 w3 _ H2 HC)).
  pose proof (transactional_step_trans w w2 w3 _ H2 HC) as H23.
  destruct (openProcess env (snd pf) (fst pf) w3) as [w4 o4] eqn:HO.
  pose proof (openProcess_effect env (snd pf) (fst pf) w3 w4 o4 HO) as (_ & _ & Ht4 & _).
  assert (transactional_step w w4 true) as H4.
  { apply (transactional_step_trans w w3 w4 _ H23).
    eapply transactional_step_quiet; [exact Ht4 | reflexivity]. }
  step in H. step in HO.
  destruct (StartProcess env (trace w3) (snd pf) (fst pf));
    injection HO as <- <-; injection H as <- <-;
    apply transactional_step_any; exact H4.
Qed.

Lemma tick_transactional env st w w' out :
  tick env st w = (w', out) -> transactional_step w w' (returned out).
Proof.
  intros H.
  destruct (PidExists env (trace w ++ [ESleep processCheckTime]) (Go.int32 (proc st)))
    eqn:Hp.
  - rewrite (tick_alive env st w Hp) in H. injection H as <- <-.
    eexists. split; [cbn [trace]; rewrite <- app_assoc; reflexivity|].
    split; [reflexivity|]. intros _. reflexivity.
  - rewrite (tick_dead env st w Hp) in H. injection H as <- <-.
    eapply transactional_step_quiet;
      [cbn [trace]; rewrite <- app_assoc; reflexivity | reflexivity].
Qed.

Lemma loop_body_transactional env config minerID st w w' out :
  loop_body env config minerID st w = (w', out) ->
  transactional_step w w' (returned out).
Proof.
  unfold loop_body. intros H.
  destruct (optimization_due config st) as [[|]| | |]; step in H;
    try (injection H as <- <-; apply transactional_step_refl).
  - now apply reoptimize_transactional in H.
  - now apply tick_transactional in H.
Qed.

Lemma run_loop_transactional n env config minerID :
  forall st w,
    transactional_step w (fst (run_loop n env config minerID st w))
      (returned (snd (run_loop n env config minerID st w))).
Proof.
  induction n as [|n IH]; intros st w; cbn [run_loop].
  - apply transactional_step_refl.
  - step. destruct (loop_body env config minerID st w) as [w1 o1] eqn:Hb.
    apply loop_body_transactional in Hb.
    destruct o1 as [st1| | |]; cbn [fst snd]; try exact Hb.
    eapply transactional_step_trans; [exact Hb | apply IH].
Qed.

Lemma startup_transactional env config w w' out :
  startup env config w = (w', out) -> transactional_step w w' (returned out).
Proof.
  unfold startup, select. intros H. step in H.
  destruct (VerifyMiner env (store w) (MinerName config)) as [tx minerID].
  step in H.
  destruct (Miner_eq_dec Miner_zero (find_miner tx minerID)).
  { injection H as <- <-. exists [EBegin]. repeat split. discriminate. }
  step in H.
  destruct (CommitSucceeds env (trace w ++ [EBegin])); step in H.
  2: { injection H as <- <-. exists [EBegin; ECommit false]. split; [flat; reflexivity|].
       split; [reflexivity | discriminate]. }
  match type of H with
  | context [Selector.getBestSoftwareAlgo ?d ?i ?u] =>
      destruct (Selector.getBestSoftwareAlgo d i u) as [best| | |]
  end;
    try (injection H as <- <-; exists [EBegin; ECommit true; ESelect];
         split; [step; flat; reflexivity|]; split; [reflexivity | discriminate]).
  step in H.
  match type of H with
  | context [changeAlgoGetParams env best config ?w1] =>
      assert (transactional_step w w1 true) as H1
        by (exists [EBegin; ECommit true; ESelect];
            split; [step; flat; reflexivity|]; split; reflexivity);
      destruct (changeAlgoGetParams env best config w1) as [w3 o3] eqn:HC
  end.
  apply changeAlgoGetParams_transactional in HC.
  pose proof (transactional_step_trans _ _ _ _ H1 HC) as H13.
  destruct o3 as [pf| | |]; try (injection H as <- <-; exact H13).
  destruct (openProcess env (snd pf) (fst pf) w3) as [w4 o4] eqn:HO.
  pose proof (openProcess_effect env (snd pf) (fst pf) w3 w4 o4 HO) as (_ & _ & Ht4 & _).
  assert (transactional_step w w4 true) as H4.
  { apply (transactional_step_trans _ w3 _ _ H13).
    eapply transactional_step_quiet; [exact Ht4 | reflexivity]. }
  step in H. step in HO.
  destruct (StartProcess env (trace w3) (snd pf) (fst pf));
    injection HO as <- <-; injection H as <- <-;
    apply transactional_step_any; exact H4.
Qed.

Lemma main_transactional n env config w :
  transactional_step w (fst (main n env config w)) false.
Proof.
  unfold main. step.
  destruct (startup env config w) as [w1 o1] eqn:Hs.
  apply startup_transactional in Hs.
  destruct o1 as [[minerID st]| | |]; cbn [fst snd returned] in *;
    try (destruct Hs as (evs & Ht & Hu & _); exists evs;
         split; [exact Ht|]; split; [exact Hu | discriminate]).
  apply (transactional_step_trans w w1 _ false Hs).
  destruct (run_loop_transactional n env config minerID st w1) as (evs & Ht & Hu & _).
  exists evs. split; [exact Ht|]. split; [exact Hu | discriminate].
Qed.

(** C7. Every update of persisted state is carried out inside a transaction.
    The combination switch of the builder is one transaction of the program:
    its history starts with [Begin], every statement it sends lies inside the
    transaction, and the store changes only through a successful commit,
    which is then the last event and follows a call that returns; every other
    end (fatal exit, recovered panic, failed commit) leaves the store as it
    was, and a panic is answered by a rollback and the zero results. The
    heartbeat of [checkIn] is one [Save] on the handle, which reaches the
    database as begin, update, commit. In every run of [main] that starts
    with no transaction open, whatever the environment answers and however
    long the loop runs, every update the database receives lies inside a
    transaction. Where the miner's key is not 0, the committed store is the
    store with the miner record saved. *)
Theorem persisted_updates_are_transactional env best config w :
  (exists cs,
     trace (fst (changeAlgoGetParams env best config w)) = trace w ++ EBegin :: cs /\
     updates_in_transaction true (session cs) = true /\
     ((store (fst (changeAlgoGetParams env best config w)) = store w /\
       ~ In (ECommit true) cs) \/
      (exists p cs',
         snd (changeAlgoGetParams env best config w) = Ret p /\
         cs = cs' ++ [ECommit true] /\
         (miner_ID (thisMiner w) <> 0%N ->
          store (fst (changeAlgoGetParams env best config w)) =
            SaveMiner (thisMiner (fst (changeAlgoGetParams env best config w)))
              (store w))))) /\
  (forall w1 p,
     changeAlgoGetParams_body env best config w = (w1, Panic p) ->
     changeAlgoGetParams env best config w =
       (mkWorld (store w) (thisMiner w1) (trace w1 ++ [ERollback]), Ret ([], EmptyString))) /\
  (let miner := with_check_in (thisMiner w) (Now env (trace w)) in
   trace (fst (checkIn env w)) = trace w ++ [EDbSave miner] /\
   session [EDbSave miner] = [SqlBegin; SqlUpdate miner; SqlCommit true] /\
   snd (checkIn env w) = Ret tt /\
   (miner_ID (thisMiner w) <> 0%N ->
    checkIn env w =
      (mkWorld (SaveMiner miner (store w)) miner (trace w ++ [EDbSave miner]), Ret tt))) /\
  (forall n,
     Claim.updates_in_transactions (trace w) ->
     open_after false (session (trace w)) = false ->
     Claim.updates_in_transactions (trace (fst (main n env config w)))).
Proof.
  split; [|split; [|split]].
  - destruct (changeAlgoGetParams env best config w) as [w' out] eqn:H.
    apply changeAlgoGetParams_effect in H.
    destruct H as (cs & Ht & Hall & Hw & Hst & _).
    exists cs. cbn [fst snd]. split; [exact Ht|]. split.
    + destruct (builder_session cs Hall true) as [-> _]. exact Hw.
    + destruct Hst as [Hs|(p & cs' & Hp & Hc & Hs)]; [left; exact Hs|].
      right. exists p, cs'. split; [exact Hp|]. split; [exact Hc|]. intros _. exact Hs.
  - intros w1 p Hb. unfold changeAlgoGetParams. rewrite Hb. step.
    apply changeAlgoGetParams_body_effect in Hb.
    destruct Hb as (cs & _ & _ & _ & [(Hs & _)|(q & cs' & Hq & _)]); [|discriminate].
    now rewrite Hs.
  - cbn [checkIn]. step. repeat split.
  - intros n Hu Hc. unfold Claim.updates_in_transactions in *.
    destruct (main_transactional n env config w) as (evs & Ht & Hus & _).
    rewrite Ht, session_app, updates_in_transaction_app, Hu, Hc. exact Hus.
Qed.

Lemma persisted_updates_are_transactional_witness :
  changeAlgoGetParams Sample.steady Sample.A Sample.config_email
    Sample.world_no_preference =
    (mkWorld Sample.db_no_preference Sample.rig_no_preference [EBegin; ERollback],
     Ret ([], EmptyString)) /\
  miner_ID (thisMiner Sample.world) <> 0%N /\
  store (fst (changeAlgoGetParams Sample.steady Sample.B Sample.config Sample.world)) =
    SaveMiner (with_algo Sample.rig 2) Sample.db /\
  Claim.updates_in_transactions
    (trace (fst (main 3 Sample.steady Sample.config Sample.world))).
Proof.
  assert (miner_ID (thisMiner Sample.world) <> 0%N) as Hid by discriminate.
  split; [|split; [exact Hid|split]].
  - rewrite (proj1 (proj2 (persisted_updates_are_transactional Sample.steady Sample.A
                             Sample.config_email Sample.world_no_preference))
               (mkWorld Sample.db_no_preference Sample.rig_no_preference [EBegin])
               NilPointerDereference eq_refl).
    reflexivity.
  - destruct (proj1 (persisted_updates_are_transactional Sample.steady Sample.B
                       Sample.config Sample.world))
      as (cs & Ht & _ & [(_ & Hn)|(p & cs' & _ & _ & Hs)]).
    + exfalso. apply Hn. vm_compute in Ht. injection Ht as <-.
      right. left. reflexivity.
    + rewrite (Hs Hid). reflexivity.
  - exact (proj2 (proj2 (proj2 (persisted_updates_are_transactional Sample.steady
                                  Sample.A Sample.config Sample.world)))
             3%nat eq_refl eq_refl).
Defined.

(** ** C8 and C9: the builder when its records are found *)

Lemma len_positive (s : string) :
  (0 <? Go.len s)%Z = negb (String.eqb s EmptyString).
Proof. destruct s; reflexivity. Qed.

(** The builder up to the notification, when the three records are found,
    a server is configured and the miner row has no e-mail preference. *)
Lemma builder_nil_preference env bestSoftwareAlgo config w :
  let minerSoft := find_software (store w) (msa_MinerSoftwareID bestSoftwareAlgo) in
  let algo := find_algorithm (store w) (msa_AlgorithmID bestSoftwareAlgo) in
  let minerSoftDetails :=
    find_file_path (store w) (miner_ID (thisMiner w)) (soft_ID minerSoft) in
  let miner := reread_miner (store w) (thisMiner w) in
  minerSoft <> MinerSoftware_zero ->
  algo <> Algorithm_zero ->
  minerSoftDetails <> MinerMinerSoftware_zero ->
  EmailServer config <> EmptyString ->
  SendEmail miner = None ->
  changeAlgoGetParams_body env bestSoftwareAlgo config w =
    (mkWorld (store w) miner (trace w ++ [EBegin]), Panic NilPointerDereference).
Proof.
  intros minerSoft algo minerSoftDetails miner Hs Ha Hd He Hn.
  unfold changeAlgoGetParams_body. step.
  fold minerSoft. fold algo.
  destruct (MinerSoftware_eq_dec MinerSoftware_zero minerSoft); [congruence|].
  destruct (Algorithm_eq_dec Algorithm_zero algo); [congruence|].
  cbn [orb]. step. fold minerSoftDetails.
  destruct (MinerMinerSoftware_eq_dec MinerMinerSoftware_zero minerSoftDetails);
    [congruence|].
  step. fold miner. rewrite len_positive.
  destruct (String.eqb (EmailServer config) EmptyString) eqn:E;
    [apply String.eqb_eq in E; contradiction|].
  cbn [negb]. rewrite Hn. reflexivity.
Qed.

(** C9. With an e-mail server configured and no e-mail preference on the
    miner row as re-read inside the transaction, the builder, once it has
    found the software, the algorithm and the file path, dereferences the nil
    preference and panics: nothing is saved or committed, the transaction is
    rolled back, the miner record keeps the active combination it had in the
    database, and the function returns the zero values of its results. *)
Theorem nil_email_preference_panics env bestSoftwareAlgo config w :
  let minerSoft := find_software (store w) (msa_MinerSoftwareID bestSoftwareAlgo) in
  let algo := find_algorithm (store w) (msa_AlgorithmID bestSoftwareAlgo) in
  let minerSoftDetails :=
    find_file_path (store w) (miner_ID (thisMiner w)) (soft_ID minerSoft) in
  let miner := reread_miner (store w) (thisMiner w) in
  minerSoft <> MinerSoftware_zero ->
  algo <> Algorithm_zero ->
  minerSoftDetails <> MinerMinerSoftware_zero ->
  EmailServer config <> EmptyString ->
  SendEmail miner = None ->
  changeAlgoGetParams_body env bestSoftwareAlgo config w =
    (mkWorld (store w) miner (trace w ++ [EBegin]), Panic NilPointerDereference) /\
  changeAlgoGetParams env bestSoftwareAlgo config w =
    (mkWorld (store w) miner (trace w ++ [EBegin; ERollback]), Ret ([], EmptyString)).
Proof.
  intros minerSoft algo minerSoftDetails miner Hs Ha Hd He Hn.
  pose proof (builder_nil_preference env bestSoftwareAlgo config w Hs Ha Hd He Hn) as Hb.
  split; [exact Hb|].
  unfold changeAlgoGetParams. rewrite Hb. step. flat. reflexivity.
Qed.

Lemma nil_email_preference_panics_witness :
  changeAlgoGetParams Sample.steady Sample.A Sample.config_email
    Sample.world_no_preference =
    (mkWorld Sample.db_no_preference Sample.rig_no_preference [EBegin; ERollback],
     Ret ([], EmptyString)).
Proof.
  apply (nil_email_preference_panics Sample.steady Sample.A Sample.config_email
           Sample.world_no_preference);
    solve [discriminate | reflexivity].
Defined.

(** C8 (amended). When the software, the algorithm and the file path are
    found, the notification does not panic, the pool-URL generator returns
    and the commit succeeds, the builder returns the file path and the
    argument list in the fixed order: software name, algorithm flag, the
    combination's name, pool flag, pool URL, wallet flag, wallet, password
    flag, pool password, then the software's extra arguments and then the
    combination's extra arguments, each group present only when its string
    is not empty and cut at every single space character. *)
Theorem arguments_in_fixed_order env bestSoftwareAlgo config w poolURL :
  let minerSoft := find_software (store w) (msa_MinerSoftwareID bestSoftwareAlgo) in
  let algo := find_algorithm (store w) (msa_AlgorithmID bestSoftwareAlgo) in
  let minerSoftDetails :=
    find_file_path (store w) (miner_ID (thisMiner w)) (soft_ID minerSoft) in
  let miner := reread_miner (store w) (thisMiner w) in
  minerSoft <> MinerSoftware_zero ->
  algo <> Algorithm_zero ->
  minerSoftDetails <> MinerMinerSoftware_zero ->
  (EmailServer config = EmptyString \/ SendEmail miner <> None) ->
  (forall h tx, GeneratePoolURL env h tx (msa_AlgorithmID bestSoftwareAlgo) =
                Returns poolURL) ->
  (forall h, CommitSucceeds env h = true) ->
  snd (changeAlgoGetParams env bestSoftwareAlgo config w) =
    Ret (argument_list (fun s => Go.Split s " ") minerSoft bestSoftwareAlgo config poolURL,
         FilePath minerSoftDetails).
Proof.
  intros minerSoft algo minerSoftDetails miner Hs Ha Hd He Hurl Hc.
  unfold changeAlgoGetParams, changeAlgoGetParams_body. step.
  fold minerSoft. fold algo.
  destruct (MinerSoftware_eq_dec MinerSoftware_zero minerSoft); [congruence|].
  destruct (Algorithm_eq_dec Algorithm_zero algo); [congruence|].
  cbn [orb]. step. fold minerSoftDetails.
  destruct (MinerMinerSoftware_eq_dec MinerMinerSoftware_zero minerSoftDetails);
    [congruence|].
  step. fold miner. rewrite !len_positive. unfold argument_list.
  destruct (String.eqb (EmailServer config) EmptyString) eqn:E; cbn [negb].
  - step. rewrite Hurl. step. rewrite Hc. step.
    destruct (String.eqb (OtherParams minerSoft) EmptyString);
      destruct (String.eqb (ExtraParams bestSoftwareAlgo) EmptyString); cbn [negb app];
      rewrite ?app_nil_r, <- ?app_assoc; reflexivity.
  - destruct He as [He|He]; [apply String.eqb_neq in E; contradiction|].
    destruct (SendEmail miner) as [[|]|]; [| |congruence];
      step; rewrite Hurl; step; rewrite Hc; step;
      destruct (String.eqb (OtherParams minerSoft) EmptyString);
      destruct (String.eqb (ExtraParams bestSoftwareAlgo) EmptyString); cbn [negb app];
      rewrite ?app_nil_r, <- ?app_assoc; reflexivity.
Qed.

(** The sample launch: the specification's worked example. *)
Lemma arguments_in_fixed_order_witness :
  snd (changeAlgoGetParams Sample.steady Sample.A Sample.config Sample.world) =
    Ret (["worker"; "--algo"; "x17"; "--pool"; "stratum+tcp://p:3333";
          "--wallet"; "W"; "--pass"; "x"], "/bin/worker").
Proof.
  rewrite (arguments_in_fixed_order Sample.steady Sample.A Sample.config Sample.world
             "stratum+tcp://p:3333").
  - reflexivity.
  - discriminate.
  - discriminate.
  - discriminate.
  - left. reflexivity.
  - intros h tx. reflexivity.
  - intros h. reflexivity.
Defined.

(** C8, as stated, fails when an extras string holds a tab: the code cuts at
    space characters only and passes "--intensity<TAB>20" as one argument,
    where a split on whitespace gives two. *)
Lemma tab_separated_extras_counterexample :
  snd (changeAlgoGetParams Sample.steady Sample.A Sample.config
         (mkWorld Sample.tab_db Sample.rig [])) =
    Ret (["worker"; "--algo"; "x17"; "--pool"; "stratum+tcp://p:3333";
          "--wallet"; "W"; "--pass"; "x";
          ("--intensity" ++ String Sample.tab "20")%string],
         "/bin/worker") /\
  argument_list spec_whitespace_split Sample.tab_worker Sample.A Sample.config
    "stratum+tcp://p:3333" =
    ["worker"; "--algo"; "x17"; "--pool"; "stratum+tcp://p:3333";
     "--wallet"; "W"; "--pass"; "x"; "--intensity"; "20"] /\
  ~ Claim.arguments_split_on_whitespace Sample.steady Sample.A Sample.config
      (mkWorld Sample.tab_db Sample.rig []) Sample.tab_worker
      "stratum+tcp://p:3333" "/bin/worker".
Proof.
  split; [reflexivity|]. split; [reflexivity|].
  unfold Claim.arguments_split_on_whitespace. vm_compute. discriminate.
Qed.

(** ** C10: "not found" is "equal to the zero value" *)

Lemma getBestSoftwareAlgo_fatal db minerID useEstimates e :
  Selector.getBestSoftwareAlgo db minerID useEstimates = Fatal e ->
  e = NoViableOptimization.
Proof.
  unfold Selector.getBestSoftwareAlgo.
  destruct (MinerSoftwareAlgos_eq_dec _ _); intros H; [now injection H | discriminate].
Qed.

(** The three ways the builder's lookups can go. *)
Lemma changeAlgoGetParams_body_lookups env best config w w1 out :
  changeAlgoGetParams_body env best config w = (w1, out) ->
  let minerSoft := find_software (store w) (msa_MinerSoftwareID best) in
  let algo := find_algorithm (store w) (msa_AlgorithmID best) in
  let minerSoftDetails :=
    find_file_path (store w) (miner_ID (thisMiner w)) (soft_ID minerSoft) in
  ((minerSoft = MinerSoftware_zero \/ algo = Algorithm_zero) /\
   out = Fatal BadSoftwareOrAlgoLink) \/
  (minerSoft <> MinerSoftware_zero /\ algo <> Algorithm_zero /\
   minerSoftDetails = MinerMinerSoftware_zero /\ out = Fatal NoFilePath) \/
  (minerSoft <> MinerSoftware_zero /\ algo <> Algorithm_zero /\
   minerSoftDetails <> MinerMinerSoftware_zero /\
   out <> Fatal BadSoftwareOrAlgoLink /\ out <> Fatal NoFilePath /\
   out <> Fatal MinerNotFound).
Proof.
  intros H minerSoft algo minerSoftDetails.
  unfold changeAlgoGetParams_body in H. step in H. fold minerSoft algo in H.
  destruct (MinerSoftware_eq_dec MinerSoftware_zero minerSoft) as [Es|Ns];
    cbn [orb] in H.
  { injection H as <- <-. left. split; [left; congruence | reflexivity]. }
  destruct (Algorithm_eq_dec Algorithm_zero algo) as [Ea|Na]; step in H.
  { injection H as <- <-. left. split; [right; congruence | reflexivity]. }
  fold minerSoftDetails in H.
  destruct (MinerMinerSoftware_eq_dec MinerMinerSoftware_zero minerSoftDetails)
    as [Ed|Nd]; step in H.
  { injection H as <- <-. right. left. repeat split; congruence. }
  right. right.
  repeat (case_on H; step in H); injection H as <- <-;
    repeat split; solve [congruence | discriminate].
Qed.

Lemma changeAlgoGetParams_lookups env best config w :
  let minerSoft := find_software (store w) (msa_MinerSoftwareID best) in
  let algo := find_algorithm (store w) (msa_AlgorithmID best) in
  let minerSoftDetails :=
    find_file_path (store w) (miner_ID (thisMiner w)) (soft_ID minerSoft) in
  let out := snd (changeAlgoGetParams env best config w) in
  ((minerSoft = MinerSoftware_zero \/ algo = Algorithm_zero) /\
   out = Fatal BadSoftwareOrAlgoLink) \/
  (minerSoft <> MinerSoftware_zero /\ algo <> Algorithm_zero /\
   minerSoftDetails = MinerMinerSoftware_zero /\ out = Fatal NoFilePath) \/
  (minerSoft <> MinerSoftware_zero /\ algo <> Algorithm_zero /\
   minerSoftDetails <> MinerMinerSoftware_zero /\
   out <> Fatal BadSoftwareOrAlgoLink /\ out <> Fatal NoFilePath /\
   out <> Fatal MinerNotFound).
Proof.
  intros minerSoft algo minerSoftDetails out. subst out.
  unfold changeAlgoGetParams.
  destruct (changeAlgoGetParams_body env best config w) as [w1 o1] eqn:Hb.
  pose proof (changeAlgoGetParams_body_lookups env best config w w1 o1 Hb) as Hc.
  cbv zeta in Hc. fold minerSoft algo minerSoftDetails in Hc.
  destruct o1; try exact Hc.
  step. right. right.
  destruct Hc as [(_ & Hc)|[(_ & _ & _ & Hc)|(Hs & Ha & Hd & _)]];
    try discriminate.
  repeat split; solve [assumption | discriminate].
Qed.

(** C10. Each "not found" test compares the fetched record with the zero
    value of its type, and the fatal branch is taken exactly when they are
    equal: in the selector on the first row of the query, in the builder on
    the software and algorithm records and then on the file-path record, at
    the start of [main] on the miner record. A row that exists and holds the
    zero value is thereby "not found": on the sample tables whose only
    scorable row carries the zero-valued combination, the selector ends
    fatally. *)
Theorem not_found_is_zero_value env config bestSoftwareAlgo w db minerID useEstimates :
  (Selector.getBestSoftwareAlgo db minerID useEstimates = Fatal NoViableOptimization <->
   Find MinerSoftwareAlgos_zero
     (map Selector.combination (Selector.query db minerID useEstimates)) =
     MinerSoftwareAlgos_zero) /\
  (snd (changeAlgoGetParams env bestSoftwareAlgo config w) = Fatal BadSoftwareOrAlgoLink <->
   find_software (store w) (msa_MinerSoftwareID bestSoftwareAlgo) = MinerSoftware_zero \/
   find_algorithm (store w) (msa_AlgorithmID bestSoftwareAlgo) = Algorithm_zero) /\
  (snd (changeAlgoGetParams env bestSoftwareAlgo config w) = Fatal NoFilePath <->
   find_software (store w) (msa_MinerSoftwareID bestSoftwareAlgo) <> MinerSoftware_zero /\
   find_algorithm (store w) (msa_AlgorithmID bestSoftwareAlgo) <> Algorithm_zero /\
   find_file_path (store w) (miner_ID (thisMiner w))
     (soft_ID (find_software (store w) (msa_MinerSoftwareID bestSoftwareAlgo))) =
     MinerMinerSoftware_zero) /\
  (snd (startup env config w) = Fatal MinerNotFound <->
   find_miner (fst (VerifyMiner env (store w) (MinerName config)))
     (snd (VerifyMiner env (store w) (MinerName config))) = Miner_zero) /\
  (Selector.joined_rows Sample.zero_db 1 <> [] /\
   In MinerSoftwareAlgos_zero (miner_software_algos Sample.zero_db) /\
   Selector.getBestSoftwareAlgo Sample.zero_db 1 1 = Fatal NoViableOptimization).
Proof.
  split; [|split; [|split; [|split]]].
  - unfold Selector.getBestSoftwareAlgo.
    destruct (MinerSoftwareAlgos_eq_dec _ _) as [E|N]; split; intros H;
      solve [congruence | discriminate].
  - pose proof (changeAlgoGetParams_lookups env bestSoftwareAlgo config w) as Hc.
    cbv zeta in Hc.
    destruct Hc as [(Hz & Ho)|[(Hs & Ha & _ & Ho)|(Hs & Ha & _ & Ho & _)]];
      split; intros H; try tauto; congruence.
  - pose proof (changeAlgoGetParams_lookups env bestSoftwareAlgo config w) as Hc.
    cbv zeta in Hc.
    destruct Hc as [(Hz & Ho)|[(Hs & Ha & Hd & Ho)|(Hs & Ha & Hd & _ & Ho & _)]];
      split; intros H; try tauto; congruence.
  - unfold startup, select. step.
    destruct (VerifyMiner env (store w) (MinerName config)) as [tx id].
    cbn [fst snd]. step.
    destruct (Miner_eq_dec Miner_zero (find_miner tx id)) as [E|N].
    { split; intros _; [congruence | reflexivity]. }
    split; [|congruence]. intros H. exfalso. step in H.
    destruct (CommitSucceeds env (trace w ++ [EBegin])); step in H; [|discriminate].
    destruct (Selector.getBestSoftwareAlgo tx id (UseEstimates config)) eqn:Hg;
      step in H; try discriminate.
    2: { apply getBestSoftwareAlgo_fatal in Hg. subst. discriminate. }
    match type of H with
    | context [changeAlgoGetParams env ?b config ?w1] =>
        pose proof (changeAlgoGetParams_lookups env b config w1) as Hc;
        destruct (changeAlgoGetParams env b config w1) as [w3 o3]
    end.
    cbv zeta in Hc. cbn [snd] in Hc.
    destruct o3 as [pf|e| |]; try discriminate.
    + step in H.
      destruct (StartProcess env (trace w3) (snd pf) (fst pf)); discriminate.
    + cbn [snd] in H.
      destruct Hc as [(_ & Ho)|[(_ & _ & _ & Ho)|(_ & _ & _ & _ & _ & Ho)]];
        congruence.
  - split; [vm_compute; discriminate|]. split; [left; reflexivity | reflexivity].
Qed.

Lemma not_found_is_zero_value_witness :
  Find MinerSoftwareAlgos_zero
    (map Selector.combination (Selector.query Sample.zero_db 1 1)) =
    MinerSoftwareAlgos_zero /\
  Selector.getBestSoftwareAlgo Sample.zero_db 1 1 = Fatal NoViableOptimization.
Proof.
  assert (Find MinerSoftwareAlgos_zero
            (map Selector.combination (Selector.query Sample.zero_db 1 1)) =
          MinerSoftwareAlgos_zero) as H by reflexivity.
  split; [exact H|].
  exact (proj2 (proj1 (not_found_is_zero_value Sample.steady Sample.config Sample.A
                         Sample.world Sample.zero_db 1 1)) H).
Defined.

(** ** Every iteration ends *)

Lemma changeAlgoGetParams_total env best config w :
  snd (changeAlgoGetParams env best config w) <> OutOfFuel.
Proof.
  unfold changeAlgoGetParams.
  destruct (changeAlgoGetParams_body env best config w) as [w1 o1] eqn:H.
  assert (o1 <> OutOfFuel) as Ho.
  { unfold changeAlgoGetParams_body in H. step in H.
    repeat (case_on H; cbn [orb] in H; step in H); injection H as <- <-;
      discriminate. }
  destruct o1; try discriminate. contradiction.
Qed.

(** No iteration of the loop is cut short by the budget of the model: each
    one returns, exits fatally, or panics. *)
Lemma loop_body_total env config minerID st w :
  snd (loop_body env config minerID st w) <> OutOfFuel.
Proof.
  unfold loop_body, optimization_due, Go.int_rem.
  destruct (0 <? secondsSlept st)%Z;
    [destruct (OptimizationCheckTime config =? 0)%Z; [discriminate|];
     destruct (Z.rem (secondsSlept st) (OptimizationCheckTime config) =? 0)%Z|];
    step.
  - unfold reoptimize, select, Selector.getBestSoftwareAlgo. step.
    destruct (MinerSoftwareAlgos_eq_dec _ _); step; [discriminate|].
    destruct (negb _); [|discriminate]. step.
    match goal with
    | |- context [Terminate env config ?p ?w1] =>
        pose proof (Terminate_total env config p w1) as HT;
        destruct (Terminate env config p w1) as [w2 [[]| | |]]
    end; cbn [snd] in *; try discriminate; [|contradiction].
    match goal with
    | |- context [changeAlgoGetParams env ?b config w2] =>
        pose proof (changeAlgoGetParams_total env b config w2) as HC;
        destruct (changeAlgoGetParams env b config w2) as [w3 [pf| | |]]
    end; cbn [snd] in *; try discriminate; [|contradiction].
    step. destruct (StartProcess env (trace w3) (snd pf) (fst pf)); discriminate.
  - destruct (PidExists env (trace w ++ [ESleep processCheckTime]) (Go.int32 (proc st)))
      eqn:Hp.
    + rewrite (tick_alive env st w Hp). discriminate.
    + rewrite (tick_dead env st w Hp).
      destruct (StartProcess env _ (filePath st) (params st)); discriminate.
  - destruct (PidExists env (trace w ++ [ESleep processCheckTime]) (Go.int32 (proc st)))
      eqn:Hp.
    + rewrite (tick_alive env st w Hp). discriminate.
    + rewrite (tick_dead env st w Hp).
      destruct (StartProcess env _ (filePath st) (params st)); discriminate.
Qed.

(** * Further properties of the code *)

(** ** The retry loop, for every behaviour of the process *)

Lemma kills_app (h k : list Event) : kills (h ++ k) = (kills h + kills k)%nat.
Proof. unfold kills. now rewrite filter_app, length_app. Qed.

Lemma killLoop_bounded env config p :
  forall fuel b t w,
    (0 <= t <= maxKillNumber)%Z ->
    (maxKillNumber + 1 - t <= Z.of_nat fuel)%Z ->
    exists ks out,
      killLoop fuel env config p b t w = (mkWorld (store w) (thisMiner w) (trace w ++ ks), out) /\
      (Z.of_nat (kills ks) <= maxKillNumber - t)%Z /\
      ((out = Ret tt /\ ~ In (ESendEmail unkillable_subject) ks) \/
       (out = Fatal Unkillable /\
        (In (ESendEmail unkillable_subject) ks <-> EmailServer config <> EmptyString))).
Proof.
  unfold maxKillNumber.
  induction fuel as [|fuel IH]; intros b t w Ht Hf; destruct b; cbn [killLoop].
  - lia.
  - exists [], (Ret tt). destruct w. rewrite app_nil_r.
    split; [reflexivity|]. split; [cbn [kills filter List.length Z.of_nat]; lia|]. left. split; [reflexivity | intros []].
  - rewrite int_add_small by lia. unfold maxKillNumber.
    destruct (1000 <? t + 1)%Z eqn:E.
    + rewrite len_positive.
      destruct (String.eqb (EmailServer config) EmptyString) eqn:Es; cbn [negb]; step.
      * exists [], (Fatal Unkillable). destruct w. rewrite app_nil_r.
        split; [reflexivity|]. split; [cbn [kills filter List.length Z.of_nat]; lia|]. right. split; [reflexivity|].
        apply String.eqb_eq in Es. split; [intros [] | congruence].
      * exists [ESendEmail unkillable_subject], (Fatal Unkillable).
        split; [reflexivity|]. split; [cbn [kills filter List.length Z.of_nat]; lia|]. right. split; [reflexivity|].
        apply String.eqb_neq in Es. split; [intros _; exact Es | intros _; now left].
    + apply Z.ltb_ge in E. step.
      match goal with
      | |- context [killLoop fuel env config p ?b' (t + 1)%Z ?w1] =>
          destruct (IH b' (t + 1)%Z w1) as (ks & out & Hk & Hn & Hout); [lia | lia |];
          remember b' as alive
      end.
      rewrite Hk. step.
      exists ([EKill p; EWait p; ESleep 10; EPidExists (Go.int32 p) alive] ++ ks), out.
      split; [f_equal; f_equal; flat; reflexivity|].
      split; [rewrite kills_app; cbn [kills filter List.length Nat.add]; lia|].
      destruct Hout as [(Ho & Hno)|(Ho & Hmail)]; [left|right]; (split; [exact Ho|]).
      * intros Hin. apply in_app_or in Hin.
        destruct Hin as [[Hin|[Hin|[Hin|[Hin|[]]]]]|Hin]; try discriminate.
        now apply Hno.
      * rewrite <- Hmail. split; intros Hin; [|apply in_or_app; now right].
        apply in_app_or in Hin.
        destruct Hin as [[Hin|[Hin|[Hin|[Hin|[]]]]]|Hin]; try discriminate.
        exact Hin.
  - exists [], (Ret tt). destruct w. rewrite app_nil_r.
    split; [reflexivity|]. split; [cbn [kills filter List.length Z.of_nat]; lia|]. left. split; [reflexivity | intros []].
Qed.

(** What [Terminate] does, whatever the probes answer. *)
Lemma Terminate_summary env config p w :
  exists ks,
    fst (Terminate env config p w) =
      mkWorld (store w) (thisMiner w) (trace w ++ ks) /\
    (kills ks <= 1001)%nat /\
    Forall (fun e => supervisor_event e = true) ks /\
    (snd (Terminate env config p w) = Ret tt \/
     snd (Terminate env config p w) = Fatal Unkillable) /\
    (In (ESendEmail unkillable_subject) ks <->
     snd (Terminate env config p w) = Fatal Unkillable /\
     EmailServer config <> EmptyString).
Proof.
  destruct (Terminate env config p w) as [w' out] eqn:HT.
  unfold Terminate in HT. step in HT.
  match type of HT with
  | killLoop ?f env config p ?b' 0%Z ?w1 = _ =>
      destruct (killLoop_bounded env config p f b' 0%Z w1) as (ks & o & Hk & Hn & Hout);
        [unfold maxKillNumber; lia | unfold maxKillNumber; lia |];
      remember b' as alive
  end.
  rewrite Hk in HT. injection HT as <- <-. step.
  pose proof (Terminate_effect env config p w) as Heff.
  exists ([EKill p; EWait p; EPidExists (Go.int32 p) alive] ++ ks).
  cbn [fst snd]. split; [f_equal; flat; reflexivity|].
  split; [rewrite kills_app; cbn [kills filter List.length Nat.add];
          unfold maxKillNumber in Hn; lia|].
  split.
  { specialize (Heff (mkWorld (store w) (thisMiner w)
                        (trace w ++ [EKill p; EWait p; EPidExists (Go.int32 p) alive] ++ ks)) o).
    assert (Terminate env config p w =
            (mkWorld (store w) (thisMiner w)
               (trace w ++ [EKill p; EWait p; EPidExists (Go.int32 p) alive] ++ ks), o)) as HT'.
    { unfold Terminate. step. rewrite <- Heqalive, Hk. step.
      f_equal. f_equal. flat. reflexivity. }
    destruct (Heff HT') as (_ & _ & ks' & Ht' & Hs' & _).
    cbn [trace] in Ht'. apply app_inv_head in Ht'. now rewrite Ht'. }
  destruct Hout as [(Ho & Hno)|(Ho & Hmail)].
  - split; [now left|]. split.
    + intros Hin. exfalso. destruct Hin as [Hin|[Hin|[Hin|Hin]]]; try discriminate.
      now apply Hno.
    + intros [Hf _]. congruence.
  - split; [now right|]. split.
    + intros Hin. split; [exact Ho|]. apply Hmail.
      destruct Hin as [Hin|[Hin|[Hin|Hin]]]; try discriminate. exact Hin.
    + intros [_ Hs]. apply Hmail in Hs. right. right. right. exact Hs.
Qed.

(** X1. Whatever the probes answer, [Terminate] ends within its budget: it
    calls [Kill] at most 1001 times, changes neither the store nor the miner
    record, launches nothing, and either returns or ends the program with the
    fatal "unable to close"; the notification is sent exactly when it gives
    up and an e-mail server is configured. *)
Theorem Terminate_is_bounded env config p w :
  exists ks,
    fst (Terminate env config p w) =
      mkWorld (store w) (thisMiner w) (trace w ++ ks) /\
    (kills ks <= 1001)%nat /\
    Forall (fun e => supervisor_event e = true) ks /\
    (snd (Terminate env config p w) = Ret tt \/
     snd (Terminate env config p w) = Fatal Unkillable) /\
    (In (ESendEmail unkillable_subject) ks <->
     snd (Terminate env config p w) = Fatal Unkillable /\
     EmailServer config <> EmptyString).
Proof. apply Terminate_summary. Qed.

(** ** Re-optimization that confirms the running combination *)

(** X2. When the selector returns the combination whose identifier the miner
    record already carries, the iteration does nothing but reset the
    slept-seconds counter: the process is neither killed nor launched, no
    transaction is opened, nothing is written and no e-mail is sent. Only the
    identifier is compared. *)
Theorem same_choice_changes_nothing env config minerID st w best :
  optimization_due config st = Ret true ->
  Selector.getBestSoftwareAlgo (store w) minerID (UseEstimates config) = Ret best ->
  msa_ID best = MinerSoftwareAlgoID (thisMiner w) ->
  loop_body env config minerID st w =
    (mkWorld (store w) (thisMiner w) (trace w ++ [ESelect]),
     Ret (mkLoopState (params st) (filePath st) (proc st) 0)).
Proof.
  intros Hdue Hbest Hid. unfold loop_body, reoptimize, select.
  rewrite Hdue. step. rewrite Hbest. step. rewrite Hid, N.eqb_refl. reflexivity.
Qed.

Lemma same_choice_changes_nothing_witness :
  loop_body Sample.steady Sample.config 1 Sample.due Sample2.started =
    (mkWorld (store Sample2.started) (thisMiner Sample2.started)
       (trace Sample2.started ++ [ESelect]),
     Ret Sample.launched).
Proof.
  apply (same_choice_changes_nothing Sample.steady Sample.config 1 Sample.due
           Sample2.started Sample.A); reflexivity.
Defined.

(** ** The mode flag of the selector *)





(** ** Splitting the free-form arguments *)

Lemma split_when_nonempty (sep : ascii -> bool) (s : string) :
  Go.split_when sep s <> [].
Proof.
  destruct s as [|c r]; cbn [Go.split_when]; [discriminate|].
  destruct (sep c); [discriminate|].
  destruct (Go.split_when sep r); discriminate.
Qed.

Lemma Join_cons (p : string) (rest : list string) (sep : ascii) :
  rest <> [] ->
  Join (p :: rest) sep = (p ++ String sep (Join rest sep))%string.
Proof. destruct rest; [contradiction | reflexivity]. Qed.

(** X4. Cutting a string at the spaces loses nothing and makes clean pieces:
    joining the pieces of [strings.Split(s, " ")] with single spaces gives
    [s] back, no piece contains a space, and there is one piece more than
    there are spaces in [s], so that two adjacent spaces, or a space at
    either end, give an empty argument. *)
Theorem Split_round_trip (s : string) (sep : ascii) :
  Join (Go.Split s sep) sep = s /\
  Forall (fun piece => occurrences sep piece = 0%nat) (Go.Split s sep) /\
  List.length (Go.Split s sep) = S (occurrences sep s).
Proof.
  unfold Go.Split. induction s as [|c r (IHj & IHf & IHl)]; cbn [Go.split_when occurrences].
  - repeat split. repeat constructor.
  - destruct (Ascii.eqb sep c) eqn:E.
    + apply Ascii.eqb_eq in E. subst c. split; [|split].
      * rewrite Join_cons by apply split_when_nonempty. now rewrite IHj.
      * constructor; [reflexivity | exact IHf].
      * cbn [List.length]. now rewrite IHl.
    + pose proof (split_when_nonempty (Ascii.eqb sep) r) as Hne.
      destruct (Go.split_when (Ascii.eqb sep) r) as [|p ps]; [contradiction|].
      split; [|split].
      * destruct ps as [|q qs].
        -- cbn [Join] in *. now rewrite IHj.
        -- rewrite Join_cons in * by discriminate.
           cbn [String.append]. now rewrite IHj.
      * inversion IHf as [|? ? Hp Hps]; subst.
        constructor; [|exact Hps]. cbn [occurrences]. now rewrite E, Hp.
      * cbn [List.length] in *. now rewrite IHl.
Qed.

(** ** Panics and the deferred calls of [main] *)

Lemma reoptimize_never_panics env config minerID st w p :
  snd (reoptimize env config minerID st w) <> Panic p.
Proof.
  unfold reoptimize, select, Selector.getBestSoftwareAlgo. step.
  destruct (MinerSoftwareAlgos_eq_dec _ _); step; [discriminate|].
  destruct (negb _); [|discriminate]. step.
  match goal with
  | |- context [Terminate env config ?q ?w1] =>
      destruct (Terminate_summary env config q w1) as (_ & _ & _ & _ & [HT|HT] & _);
      destruct (Terminate env config q w1) as [w2 o2]
  end; cbn [snd] in HT; subst o2; [|discriminate].
  match goal with
  | |- context [changeAlgoGetParams env ?b config w2] =>
      destruct (changeAlgoGetParams env b config w2) as [w3 o3] eqn:HC
  end.
  apply changeAlgoGetParams_effect in HC. destruct HC as (_ & _ & _ & _ & _ & HC).
  destruct o3 as [pf| |q|]; try discriminate; [|now specialize (HC q)].
  step. destruct (StartProcess env (trace w3) (snd pf) (fst pf)); discriminate.
Qed.

Lemma tick_never_panics env st w p : snd (tick env st w) <> Panic p.
Proof.
  destruct (PidExists env (trace w ++ [ESleep processCheckTime]) (Go.int32 (proc st)))
    eqn:Hp.
  - rewrite (tick_alive env st w Hp). discriminate.
  - rewrite (tick_dead env st w Hp).
    destruct (StartProcess env _ (filePath st) (params st)); discriminate.
Qed.

(** The only panic that leaves an iteration is the division by a zero
    period, before the iteration has done anything. *)
Lemma loop_body_panic env config minerID st w w' p :
  loop_body env config minerID st w = (w', Panic p) <->
  w' = w /\ p = IntegerDivideByZero /\
  OptimizationCheckTime config = 0%Z /\ (0 < secondsSlept st)%Z.
Proof.
  unfold loop_body, optimization_due, Go.int_rem. split.
  - intros H.
    destruct (0 <? secondsSlept st)%Z eqn:Hs.
    + destruct (OptimizationCheckTime config =? 0)%Z eqn:Hz.
      * step in H. injection H as <- <-.
        apply Z.ltb_lt in Hs. apply Z.eqb_eq in Hz. auto.
      * exfalso. step in H.
        destruct (Z.rem (secondsSlept st) (OptimizationCheckTime config) =? 0)%Z.
        -- apply (reoptimize_never_panics env config minerID st w p). now rewrite H.
        -- apply (tick_never_panics env st w p). now rewrite H.
    + exfalso. step in H. apply (tick_never_panics env st w p). now rewrite H.
  - intros (-> & -> & Hz & Hs). apply Z.ltb_lt in Hs. rewrite Hs, Hz. reflexivity.
Qed.

(** X5. A panic leaves an iteration of the loop only through the test of
    the loop with a period of zero and a positive counter, before the
    iteration has done anything. The deferred calls of [main] then kill the
    child that is running and roll back, and [main] returns: under its
    deferred calls the loop never ends in a panic, and the history of such an
    end is the kill of the current child followed by the rollback. *)
Theorem panic_is_caught_and_child_killed env config minerID st w n :
  (forall w' p,
     loop_body env config minerID st w = (w', Panic p) <->
     w' = w /\ p = IntegerDivideByZero /\
     OptimizationCheckTime config = 0%Z /\ (0 < secondsSlept st)%Z) /\
  (forall p, snd (supervise n env config minerID st w) <> Panic p) /\
  (OptimizationCheckTime config = 0%Z ->
   (0 < secondsSlept st)%Z ->
   supervise (S n) env config minerID st w =
     (mkWorld (store w) (thisMiner w) (trace w ++ [EKill (proc st); ERollback]),
      Ret st)).
Proof.
  split; [|split].
  - intros w' p. apply loop_body_panic.
  - revert st w. induction n as [|n IH]; intros st w p; cbn [supervise].
    + discriminate.
    + destruct (loop_body env config minerID st w) as [w' [st'| |q|]];
        [apply IH | discriminate | unfold deferred; step; discriminate | discriminate].
  - intros Hz Hs. cbn [supervise].
    rewrite (proj2 (loop_body_panic env config minerID st w w IntegerDivideByZero))
      by auto.
    unfold deferred. step. flat. reflexivity.
Qed.

Lemma panic_is_caught_and_child_killed_witness :
  supervise 1 Sample.steady Sample.config_period_0 1 Sample.slept_30 Sample.world =
    (mkWorld Sample.db Sample.rig [EKill 4242; ERollback], Ret Sample.slept_30).
Proof.
  apply (proj2 (proj2 (panic_is_caught_and_child_killed Sample.steady
                         Sample.config_period_0 1 Sample.slept_30 Sample.world 0)));
    reflexivity.
Defined.

(** ** What the program writes *)

Lemma miner_ID_reread tx m : miner_ID (reread_miner tx m) = miner_ID m.
Proof.
  unfold reread_miner, Find.
  destruct (filter (fun x => miner_ID x =? miner_ID m)%N (miners tx)) as [|x l] eqn:E;
    [reflexivity|].
  assert (In x (filter (fun x => miner_ID x =? miner_ID m)%N (miners tx))) as Hin
    by (rewrite E; now left).
  apply filter_In in Hin. destruct Hin as [_ Hin]. now apply N.eqb_eq in Hin.
Qed.

Lemma find_miner_save m db : find_miner (SaveMiner m db) (miner_ID m) = m.
Proof.
  unfold find_miner, SaveMiner, Find. cbn [miners].
  induction (miners db) as [|x l IH]; cbn [save_row filter].
  - now rewrite N.eqb_refl.
  - destruct (miner_ID x =? miner_ID m)%N eqn:E; cbn [filter].
    + now rewrite N.eqb_refl.
    + now rewrite E.
Qed.

Lemma other_miners_save m db :
  other_miners (miner_ID m) (SaveMiner m db) = other_miners (miner_ID m) db.
Proof.
  unfold other_miners, SaveMiner. cbn [miners].
  induction (miners db) as [|x l IH]; cbn [save_row filter].
  - now rewrite N.eqb_refl.
  - destruct (miner_ID x =? miner_ID m)%N eqn:E; cbn [filter negb].
    + rewrite N.eqb_refl. reflexivity.
    + rewrite E. cbn [negb]. now rewrite IH.
Qed.

Lemma same_catalog_save m db : same_catalog db (SaveMiner m db).
Proof. repeat split. Qed.

Lemma wrote_own_row_only_refl w : wrote_own_row_only w w.
Proof. repeat split. Qed.

Lemma wrote_own_row_only_trans w1 w2 w3 :
  wrote_own_row_only w1 w2 -> wrote_own_row_only w2 w3 -> wrote_own_row_only w1 w3.
Proof.
  unfold wrote_own_row_only, same_catalog.
  intros (Hi & Hc & Ho) (Hi' & Hc' & Ho').
  rewrite Hi in Ho'. repeat split; try congruence;
    destruct Hc as (?&?&?&?&?&?&?&?), Hc' as (?&?&?&?&?&?&?&?); congruence.
Qed.

Lemma wrote_own_row_only_save w m t :
  miner_ID m = miner_ID (thisMiner w) ->
  wrote_own_row_only w (mkWorld (SaveMiner m (store w)) m t).
Proof.
  intros Hid. split; [exact Hid|]. split; [apply same_catalog_save|].
  cbn [store]. rewrite <- Hid. apply other_miners_save.
Qed.

Lemma wrote_own_row_only_same_store w s m t :
  s = store w -> miner_ID m = miner_ID (thisMiner w) ->
  wrote_own_row_only w (mkWorld s m t).
Proof. intros -> Hid. repeat split. exact Hid. Qed.

(** The builder, seen from the store and the miner record. *)
Lemma changeAlgoGetParams_body_state env best config w w1 o1 :
  changeAlgoGetParams_body env best config w = (w1, o1) ->
  miner_ID (thisMiner w1) = miner_ID (thisMiner w) /\
  ((store w1 = store w /\ forall ps path, o1 <> Ret (ps, path)) \/
   (store w1 = SaveMiner (thisMiner w1) (store w) /\
    thisMiner w1 = with_algo (reread_miner (store w) (thisMiner w)) (msa_ID best) /\
    exists a args path, o1 = Ret (a :: args, path))).
Proof.
  unfold changeAlgoGetParams_body. intros H. step in H.
  repeat (case_on H; cbn [orb] in H; step in H); injection H as <- <-; step;
    (split; [cbn [with_algo miner_ID]; first [reflexivity | apply miner_ID_reread]|]);
    first [ left; split; [reflexivity | intros; discriminate]
          | right; split; [reflexivity|]; split; [reflexivity|];
            cbn [app]; do 3 eexists; reflexivity ].
Qed.

Lemma changeAlgoGetParams_state env best config w w' out :
  changeAlgoGetParams env best config w = (w', out) ->
  miner_ID (thisMiner w') = miner_ID (thisMiner w) /\
  ((store w' = store w /\ forall a args path, out <> Ret (a :: args, path)) \/
   (store w' = SaveMiner (thisMiner w') (store w) /\
    thisMiner w' = with_algo (reread_miner (store w) (thisMiner w)) (msa_ID best) /\
    exists a args path, out = Ret (a :: args, path))).
Proof.
  unfold changeAlgoGetParams. intros H.
  destruct (changeAlgoGetParams_body env best config w) as [w1 o1] eqn:Hb.
  apply changeAlgoGetParams_body_state in Hb. destruct Hb as (Hid & Hst).
  destruct o1 as [pf| |p|].
  - injection H as <- <-. split; [exact Hid|].
    destruct Hst as [(Hs & Hn)|Hs]; [|right; exact Hs].
    exfalso. destruct pf. now apply (Hn l s).
  - injection H as <- <-. split; [exact Hid|].
    destruct Hst as [(Hs & Hn)|(_ & _ & a & args & path & Ho)]; [|discriminate].
    left. split; [exact Hs | discriminate].
  - step in H. injection H as <- <-. step. split; [exact Hid|].
    left. split; [|discriminate].
    destruct Hst as [(Hs & _)|(_ & _ & a & args & path & Ho)]; [exact Hs | discriminate].
  - injection H as <- <-. split; [exact Hid|].
    destruct Hst as [(Hs & Hn)|(_ & _ & a & args & path & Ho)]; [|discriminate].
    left. split; [exact Hs | discriminate].
Qed.

(** X6. For a miner whose key is not 0: when the builder returns an argument
    list, the switch is in the database: the miner record is the row re-read
    inside the transaction with the selected combination as its active one
    and the offline notice cleared, the committed store holds exactly that
    record under the miner's identifier, and no other table and no other
    miner's row has changed. *)
Theorem returned_switch_is_persisted env best config w w' a args path :
  miner_ID (thisMiner w) <> 0%N ->
  changeAlgoGetParams env best config w = (w', Ret (a :: args, path)) ->
  thisMiner w' = with_algo (reread_miner (store w) (thisMiner w)) (msa_ID best) /\
  find_miner (store w') (miner_ID (thisMiner w)) = thisMiner w' /\
  MinerSoftwareAlgoID (find_miner (store w') (miner_ID (thisMiner w))) = msa_ID best /\
  OfflineNoticeSent (find_miner (store w') (miner_ID (thisMiner w))) = false /\
  wrote_own_row_only w w'.
Proof.
  intros _ H. apply changeAlgoGetParams_state in H.
  destruct H as (Hid & [(_ & Hn)|(Hs & Hm & _)]); [exfalso; now apply (Hn a args path)|].
  assert (find_miner (store w') (miner_ID (thisMiner w)) = thisMiner w') as Hf.
  { rewrite Hs, <- Hid. apply find_miner_save. }
  split; [exact Hm|]. split; [exact Hf|]. rewrite Hf, Hm.
  split; [reflexivity|]. split; [reflexivity|].
  destruct w' as [s' m' t']. cbn [store thisMiner] in *. subst s'.
  now apply wrote_own_row_only_save.
Qed.

Lemma returned_switch_is_persisted_witness :
  miner_ID (thisMiner Sample.world) <> 0%N /\
  MinerSoftwareAlgoID
    (find_miner
       (store (fst (changeAlgoGetParams Sample.steady Sample.B Sample.config Sample.world)))
       1) = 2%N.
Proof.
  assert (miner_ID (thisMiner Sample.world) <> 0%N) as Hid by discriminate.
  split; [exact Hid|].
  refine (proj1 (proj2 (proj2
    (returned_switch_is_persisted Sample.steady Sample.B Sample.config Sample.world
       (fst (changeAlgoGetParams Sample.steady Sample.B Sample.config Sample.world))
       "worker"
       ["--algo"; "scrypt"; "--pool"; "stratum+tcp://p:3333"; "--wallet"; "W";
        "--pass"; "x"]
       "/bin/worker" Hid _)))).
  reflexivity.
Defined.

(** X7. For a miner whose key is not 0, the heartbeat stores the moment of
    the check-in and the whole miner record as the program holds it: after
    [checkIn] the row under the miner's identifier is that record, whatever
    the row held before, its fields other than the check-in time are those
    the program had, and no other table and no other miner's row has
    changed. *)
Theorem heartbeat_overwrites_own_row env w :
  miner_ID (thisMiner w) <> 0%N ->
  let w' := fst (checkIn env w) in
  snd (checkIn env w) = Ret tt /\
  thisMiner w' = with_check_in (thisMiner w) (Now env (trace w)) /\
  find_miner (store w') (miner_ID (thisMiner w)) = thisMiner w' /\
  wrote_own_row_only w w'.
Proof.
  intros _. cbn [checkIn]. step.
  split; [reflexivity|]. split; [reflexivity|]. split.
  - exact (find_miner_save (with_check_in (thisMiner w) (Now env (trace w))) (store w)).
  - now apply wrote_own_row_only_save.
Qed.

Lemma heartbeat_overwrites_own_row_witness :
  miner_ID (thisMiner Sample.world) <> 0%N /\
  find_miner (store (fst (checkIn Sample.steady Sample.world))) 1 =
    with_check_in Sample.rig 0.
Proof.
  assert (miner_ID (thisMiner Sample.world) <> 0%N) as Hid by discriminate.
  split; [exact Hid|].
  exact (proj1 (proj2 (proj2
           (heartbeat_overwrites_own_row Sample.steady Sample.world Hid)))).
Defined.

Lemma wrote_own_row_only_from w w' :
  miner_ID (thisMiner w') = miner_ID (thisMiner w) ->
  store w' = store w \/ store w' = SaveMiner (thisMiner w') (store w) ->
  wrote_own_row_only w w'.
Proof.
  intros Hid Hs. destruct w' as [s' m' t']. cbn [store thisMiner] in *.
  destruct Hs as [->| ->];
    [now apply wrote_own_row_only_same_store | now apply wrote_own_row_only_save].
Qed.

Lemma reoptimize_writes env config minerID st w w' out :
  reoptimize env config minerID st w = (w', out) -> wrote_own_row_only w w'.
Proof.
  unfold reoptimize, select. intros H. step in H.
  destruct (Selector.getBestSoftwareAlgo (store w) minerID (UseEstimates config))
    as [best| | |];
    try (injection H as <- <-; now apply wrote_own_row_only_same_store).
  step in H. cbn [proc secondsSlept params filePath] in H.
  destruct (negb (msa_ID best =? MinerSoftwareAlgoID (thisMiner w))%N);
    [|injection H as <- <-; now apply wrote_own_row_only_same_store].
  step in H.
  match type of H with
  | context [Terminate env config (proc st) ?w1] =>
      destruct (Terminate env config (proc st) w1) as [w2 o2] eqn:HT
  end.
  apply Terminate_effect in HT. destruct HT as (Hs2 & Hm2 & _).
  step in Hs2. step in Hm2.
  assert (wrote_own_row_only w w2) as H2
    by (apply wrote_own_row_only_from; [now rewrite Hm2 | now left]).
  destruct o2 as [[]| | |]; try (injection H as <- <-; exact H2).
  destruct (changeAlgoGetParams env best config w2) as [w3 o3] eqn:HC.
  apply changeAlgoGetParams_state in HC. destruct HC as (Hid3 & Hst3).
  assert (wrote_own_row_only w2 w3) as H3.
  { apply wrote_own_row_only_from; [exact Hid3|].
    destruct Hst3 as [(Hs & _)|(Hs & _)]; [now left | now right]. }
  pose proof (wrote_own_row_only_trans w w2 w3 H2 H3) as H23.
  destruct o3 as [pf| | |]; try (injection H as <- <-; exact H23).
  destruct (openProcess env (snd pf) (fst pf) w3) as [w4 o4] eqn:HO.
  pose proof (openProcess_effect env (snd pf) (fst pf) w3 w4 o4 HO) as (Hs4 & Hm4 & _).
  step in H. step in HO.
  assert (wrote_own_row_only w3 w4) as H4
    by (apply wrote_own_row_only_from; [now rewrite Hm4 | now left]).
  apply (wrote_own_row_only_trans w w3 w' H23).
  destruct (StartProcess env (trace w3) (snd pf) (fst pf));
    injection HO as <- <-; injection H as <- <-; exact H4.
Qed.

Lemma tick_writes env st w w' out :
  tick env st w = (w', out) -> wrote_own_row_only w w'.
Proof.
  intros H.
  destruct (PidExists env (trace w ++ [ESleep processCheckTime]) (Go.int32 (proc st)))
    eqn:Hp.
  - rewrite (tick_alive env st w Hp) in H. injection H as <- <-.
    now apply wrote_own_row_only_save.
  - rewrite (tick_dead env st w Hp) in H. injection H as <- <-.
    now apply wrote_own_row_only_same_store.
Qed.

Lemma loop_body_writes env config minerID st w w' out :
  loop_body env config minerID st w = (w', out) -> wrote_own_row_only w w'.
Proof.
  unfold loop_body. intros H.
  destruct (optimization_due config st) as [[|]| | |]; step in H;
    try (injection H as <- <-; apply wrote_own_row_only_refl).
  - now apply reoptimize_writes in H.
  - now apply tick_writes in H.
Qed.

Lemma run_loop_writes n env config minerID :
  forall st w, wrote_own_row_only w (fst (run_loop n env config minerID st w)).
Proof.
  induction n as [|n IH]; intros st w; cbn [run_loop].
  - apply wrote_own_row_only_refl.
  - step. destruct (loop_body env config minerID st w) as [w1 o1] eqn:Hb.
    apply loop_body_writes in Hb.
    destruct o1 as [st1| | |]; cbn [fst]; try exact Hb.
    eapply wrote_own_row_only_trans; [exact Hb | apply IH].
Qed.

(** X8. For a miner whose key is not 0: however many iterations the loop
    runs and whatever the environment answers, the program writes nothing but
    the row of its own miner: the miner record keeps its identifier, the
    catalog, statistics and pool tables are as they were before the loop, and
    so are the rows of every other miner. *)
Theorem loop_writes_own_row_only n env config minerID st w :
  miner_ID (thisMiner w) <> 0%N ->
  wrote_own_row_only w (fst (run_loop n env config minerID st w)).
Proof.
  intros _. apply run_loop_writes.
Qed.

Lemma loop_writes_own_row_only_witness :
  miner_ID (thisMiner Sample.world) <> 0%N /\
  other_miners 1
    (store (fst (run_loop 2 Sample.steady Sample.config 1 Sample.launched Sample.world))) =
    [].
Proof.
  assert (miner_ID (thisMiner Sample.world) <> 0%N) as Hid by discriminate.
  split; [exact Hid|].
  exact (proj2 (proj2
           (loop_writes_own_row_only 2 Sample.steady Sample.config 1 Sample.launched
              Sample.world Hid))).
Defined.

(** ** The launch the loop remembers *)

Lemma last_start_app (h k : list Event) :
  last_start (h ++ k) =
    match last_start k with
    | Some s => Some s
    | None => last_start h
    end.
Proof.
  induction h as [|e h IH]; simpl.
  - now destruct (last_start k).
  - rewrite IH. now destruct (last_start k).
Qed.

Lemma reoptimize_tracks env config minerID st w w' st' :
  tracks_last_start st w ->
  reoptimize env config minerID st w = (w', Ret st') ->
  tracks_last_start st' w'.
Proof.
  unfold tracks_last_start, reoptimize, select. intros Hinv H. step in H.
  destruct (Selector.getBestSoftwareAlgo (store w) minerID (UseEstimates config))
    as [best| | |]; try discriminate.
  step in H. cbn [proc secondsSlept params filePath] in H.
  destruct (negb (msa_ID best =? MinerSoftwareAlgoID (thisMiner w))%N).
  - step in H.
    match type of H with
    | context [Terminate env config (proc st) ?w1] =>
        destruct (Terminate env config (proc st) w1) as [w2 [[]| | |]]; try discriminate
    end.
    destruct (changeAlgoGetParams env best config w2) as [w3 [pf| | |]];
      try discriminate.
    step in H.
    destruct (StartProcess env (trace w3) (snd pf) (fst pf)) eqn:Hs; [|discriminate].
    injection H as <- <-. step. rewrite last_start_app. reflexivity.
  - injection H as <- <-. step. now rewrite last_start_app.
Qed.

Lemma tick_tracks env st w w' st' :
  tracks_last_start st w ->
  tick env st w = (w', Ret st') ->
  tracks_last_start st' w'.
Proof.
  unfold tracks_last_start. intros Hinv H.
  destruct (PidExists env (trace w ++ [ESleep processCheckTime]) (Go.int32 (proc st)))
    eqn:Hp.
  - rewrite (tick_alive env st w Hp) in H. injection H as <- <-. step.
    rewrite !last_start_app. exact Hinv.
  - rewrite (tick_dead env st w Hp) in H.
    destruct (StartProcess env _ (filePath st) (params st)) eqn:Hs; [|discriminate].
    injection H as <- <-. step. rewrite last_start_app. reflexivity.
Qed.

Lemma run_loop_tracks n env config minerID :
  forall st w w' st',
    tracks_last_start st w ->
    run_loop n env config minerID st w = (w', Ret st') ->
    tracks_last_start st' w'.
Proof.
  induction n as [|n IH]; intros st w w' st' Hinv H; cbn [run_loop] in H.
  - injection H as <- <-. exact Hinv.
  - step in H. destruct (loop_body env config minerID st w) as [w1 o1] eqn:Hb.
    destruct o1 as [st1| | |]; try discriminate.
    apply (IH st1 w1 w' st'); [|exact H].
    unfold loop_body in Hb.
    destruct (optimization_due config st) as [[|]| | |]; step in Hb; try discriminate.
    + eapply reoptimize_tracks; eauto.
    + eapply tick_tracks; eauto.
Qed.

Lemma startup_tracks env config w w' minerID st :
  startup env config w = (w', Ret (minerID, st)) ->
  tracks_last_start st w'.
Proof.
  unfold startup, tracks_last_start, select. intros H. step in H.
  destruct (VerifyMiner env (store w) (MinerName config)) as [tx id].
  step in H.
  destruct (Miner_eq_dec Miner_zero _); [discriminate|]. step in H.
  destruct (CommitSucceeds env (trace w ++ [EBegin])); step in H; [|discriminate].
  destruct (Selector.getBestSoftwareAlgo tx id (UseEstimates config)) as [best| | |];
    try discriminate.
  step in H.
  match type of H with
  | context [changeAlgoGetParams env best config ?w1] =>
      destruct (changeAlgoGetParams env best config w1) as [w3 [pf| | |]];
        try discriminate
  end.
  step in H.
  destruct (StartProcess env (trace w3) (snd pf) (fst pf)) eqn:Hs; [|discriminate].
  injection H as <- <- <-. step. rewrite last_start_app. reflexivity.
Qed.

(** X9. As long as [main] is running, the path, the argument list and the
    process handle its loop holds are those of the most recent launch in the
    history, and that launch is one the operating system accepted: this holds
    after the start and after any number of iterations, through switches,
    respawns and heartbeats alike. *)
Theorem loop_tracks_the_running_process n env config w w' st :
  main n env config w = (w', Ret st) ->
  tracks_last_start st w'.
Proof.
  unfold main. intros H. step in H.
  destruct (startup env config w) as [w0 [[id st0]| | |]] eqn:Hs; try discriminate.
  cbn [fst snd] in H.
  apply startup_tracks in Hs.
  exact (run_loop_tracks n env config id st0 w0 w' st Hs H).
Qed.

Lemma loop_tracks_the_running_process_witness :
  tracks_last_start
    (mkLoopState (params Sample.launched) "/bin/worker" 4243 60)
    (fst (main 2 Sample.mortal Sample.config Sample.world)).
Proof.
  apply (loop_tracks_the_running_process 2 Sample.mortal Sample.config Sample.world).
  vm_compute. reflexivity.
Defined.

(** ** The notification of a switch *)

(** X10. The builder sends the "New Optimal" e-mail exactly when it has found
    the software, the algorithm and the file path, an e-mail server is
    configured, and the miner row as re-read inside the transaction allows
    e-mail; the preference the program loaded earlier plays no part. *)
Theorem switch_email_policy env best config w :
  exists cs,
    trace (fst (changeAlgoGetParams env best config w)) = trace w ++ cs /\
    (In (ESendEmail (new_optimal_subject config)) cs <->
     find_software (store w) (msa_MinerSoftwareID best) <> MinerSoftware_zero /\
     find_algorithm (store w) (msa_AlgorithmID best) <> Algorithm_zero /\
     find_file_path (store w) (miner_ID (thisMiner w))
       (soft_ID (find_software (store w) (msa_MinerSoftwareID best))) <>
       MinerMinerSoftware_zero /\
     EmailServer config <> EmptyString /\
     SendEmail (reread_miner (store w) (thisMiner w)) = Some true).
Proof.
  unfold changeAlgoGetParams, changeAlgoGetParams_body. step.
  destruct (MinerSoftware_eq_dec MinerSoftware_zero
              (find_software (store w) (msa_MinerSoftwareID best))) as [Es|Ns];
    cbn [orb].
  { step. exists [EBegin]. split; [reflexivity|].
    split; [intros [Hin|[]]; discriminate | intros (H & _); congruence]. }
  destruct (Algorithm_eq_dec Algorithm_zero
              (find_algorithm (store w) (msa_AlgorithmID best))) as [Ea|Na]; step.
  { exists [EBegin]. split; [reflexivity|].
    split; [intros [Hin|[]]; discriminate | intros (_ & H & _); congruence]. }
  destruct (MinerMinerSoftware_eq_dec MinerMinerSoftware_zero _) as [Ed|Nd]; step.
  { exists [EBegin]. split; [reflexivity|].
    split; [intros [Hin|[]]; discriminate | intros (_ & _ & H & _); congruence]. }
  rewrite len_positive.
  destruct (String.eqb (EmailServer config) EmptyString) eqn:Ee; cbn [negb];
    [apply String.eqb_eq in Ee | apply String.eqb_neq in Ee].
  - step.
    destruct (GeneratePoolURL env _ _ _); step;
      [destruct (CommitSucceeds env _); step| |];
      (eexists; split; [flat; reflexivity|]);
      (split; [intros Hin; simpl in Hin; intuition discriminate
              | intros (_ & _ & _ & H & _); contradiction]).
  - destruct (SendEmail (reread_miner (store w) (thisMiner w))) as [[|]|] eqn:Ep; step.
    + destruct (GeneratePoolURL env _ _ _); step;
        [destruct (CommitSucceeds env _); step| |];
        (eexists; split; [flat; reflexivity|]);
        (split; [intros _; repeat split; congruence
                | intros _; right; left; reflexivity]).
    + destruct (GeneratePoolURL env _ _ _); step;
        [destruct (CommitSucceeds env _); step| |];
        (eexists; split; [flat; reflexivity|]);
        (split; [intros Hin; simpl in Hin; intuition discriminate
                | intros (_ & _ & _ & _ & H); discriminate]).
    + eexists. split; [flat; reflexivity|].
      split; [intros Hin; simpl in Hin; intuition discriminate
             | intros (_ & _ & _ & _ & H); discriminate].
Qed.

(** ** A switch that meets a miner row without e-mail preference *)

(** X11. A switch is not undone when the builder panics: with the selector
    choosing another combination, the old process gone at the first probe,
    an e-mail server configured and no e-mail preference on the miner row,
    the iteration has already stopped the old process when the builder
    panics, and it goes on to launch with the zero values the builder
    returned, an empty path and no argument; the database still names the
    old combination. *)
Theorem switch_with_nil_preference_launches_nothing_useful
    env config minerID st w best :
  optimization_due config st = Ret true ->
  Selector.getBestSoftwareAlgo (store w) minerID (UseEstimates config) = Ret best ->
  msa_ID best <> MinerSoftwareAlgoID (thisMiner w) ->
  PidExists env (trace w ++ [ESelect; EKill (proc st); EWait (proc st)])
    (Go.int32 (proc st)) = false ->
  find_software (store w) (msa_MinerSoftwareID best) <> MinerSoftware_zero ->
  find_algorithm (store w) (msa_AlgorithmID best) <> Algorithm_zero ->
  find_file_path (store w) (miner_ID (thisMiner w))
    (soft_ID (find_software (store w) (msa_MinerSoftwareID best))) <>
    MinerMinerSoftware_zero ->
  EmailServer config <> EmptyString ->
  SendEmail (reread_miner (store w) (thisMiner w)) = None ->
  let before :=
    trace w ++ [ESelect; EKill (proc st); EWait (proc st);
                EPidExists (Go.int32 (proc st)) false; EBegin; ERollback] in
  let started := StartProcess env before EmptyString [] in
  loop_body env config minerID st w =
    (mkWorld (store w) (reread_miner (store w) (thisMiner w))
       (before ++ [EStartProcess EmptyString [] started]),
     match started with
     | Some proc' => Ret (mkLoopState [] EmptyString proc' 0)
     | None => Fatal StartFailed
     end).
Proof.
  intros Hdue Hbest Hid Hdead Hs Ha Hd He Hn before started.
  unfold loop_body, reoptimize, select. rewrite Hdue. step. rewrite Hbest. step.
  destruct (msa_ID best =? MinerSoftwareAlgoID (thisMiner w))%N eqn:E;
    [apply N.eqb_eq in E; contradiction|].
  cbn [negb proc]. unfold Terminate. step. flat. rewrite Hdead.
  cbn [killLoop]. step.
  unfold changeAlgoGetParams.
  match goal with
  | |- context [changeAlgoGetParams_body env best config ?w1] =>
      rewrite (builder_nil_preference env best config w1 Hs Ha Hd He Hn)
  end.
  step. flat. subst before started. cbn [app].
  destruct (StartProcess env _ EmptyString []); step; flat; reflexivity.
Qed.

Lemma switch_with_nil_preference_launches_nothing_useful_witness :
  loop_body Sample.mortal Sample.config_email 1 Sample.due Sample.world_no_preference =
    (mkWorld Sample.db_no_preference Sample.rig_no_preference
       [ESelect; EKill 4242; EWait 4242; EPidExists 4242 false; EBegin; ERollback;
        EStartProcess EmptyString [] (Some 4243%Z)],
     Ret (mkLoopState [] EmptyString 4243 0)).
Proof.
  apply (switch_with_nil_preference_launches_nothing_useful Sample.mortal
           Sample.config_email 1 Sample.due Sample.world_no_preference Sample.A);
    solve [reflexivity | discriminate].
Defined.

(** ** The real period of the re-optimization *)

Lemma lcm_30_pos (p : Z) : (0 < p)%Z -> (0 < Z.lcm 30 p)%Z.
Proof.
  intros Hp. pose proof (Z.lcm_nonneg 30 p) as Hn.
  assert (Z.lcm 30 p <> 0)%Z as Hz by (intros H; apply Z.lcm_eq_0 in H; lia).
  lia.
Qed.

(** Below the least common multiple of 30 and the period, a multiple of 30 is
    no multiple of the period. *)
Lemma not_due_below_lcm config st (k : Z) :
  (0 < OptimizationCheckTime config)%Z ->
  secondsSlept st = (30 * k)%Z ->
  (0 <= k)%Z ->
  (30 * k < Z.lcm 30 (OptimizationCheckTime config))%Z ->
  optimization_due config st = Ret false.
Proof.
  intros Hp Hs Hk Hlt.
  destruct (optimization_due_spec config st) as [(_ & Hn & Hd)|(Hf & _)];
    [lia | lia | | exact Hf].
  exfalso.
  assert ((Z.lcm 30 (OptimizationCheckTime config) | secondsSlept st)%Z) as Hl.
  { apply Z.lcm_least; [rewrite Hs; now exists k; lia | exact Hd]. }
  apply Z.divide_pos_le in Hl; lia.
Qed.

Lemma due_at_lcm config st :
  (0 < OptimizationCheckTime config)%Z ->
  secondsSlept st = Z.lcm 30 (OptimizationCheckTime config) ->
  optimization_due config st = Ret true.
Proof.
  intros Hp Hs. pose proof (lcm_30_pos _ Hp) as Hl.
  destruct (optimization_due_spec config st) as [(Ht & _)|(_ & Hn)];
    [lia | lia | exact Ht |].
  exfalso. apply Hn. split; [lia|]. rewrite Hs. apply Z.divide_lcm_r.
Qed.

Lemma alive_ticks_below_lcm env config minerID :
  (forall h p, PidExists env h p = true) ->
  (0 < OptimizationCheckTime config)%Z ->
  (Z.lcm 30 (OptimizationCheckTime config) < 2 ^ 63)%Z ->
  forall (n k : nat) st w,
    secondsSlept st = (30 * Z.of_nat k)%Z ->
    (30 * Z.of_nat (k + n) <= Z.lcm 30 (OptimizationCheckTime config))%Z ->
    exists w' st' h,
      run_loop n env config minerID st w = (w', Ret st') /\
      trace w' = trace w ++ h /\
      heartbeats h = n /\ ~ In ESelect h /\
      secondsSlept st' = (30 * Z.of_nat (k + n))%Z.
Proof.
  intros Halive Hp Hb. induction n as [|n IH]; intros k st w Hs Hk.
  - exists w, st, []. cbn [run_loop]. rewrite app_nil_r, Nat.add_0_r.
    repeat split; auto.
  - cbn [run_loop]. unfold loop_body.
    rewrite (not_due_below_lcm config st (Z.of_nat k)) by lia.
    step. rewrite (tick_alive env st w (Halive _ _)).
    match goal with
    | |- context [run_loop n env config minerID ?s ?v] =>
        destruct (IH (S k) s v) as (w' & st' & h & Hrun & Ht & Hh & Hn & Hs')
    end.
    { cbn [secondsSlept]. rewrite int_add_small; unfold processCheckTime; lia. }
    { replace (S k + n)%nat with (k + S n)%nat by lia. exact Hk. }
    exists w', st'. eexists. split; [exact Hrun|].
    split; [rewrite Ht; cbn [trace]; flat; reflexivity|].
    split; [unfold heartbeats in *; cbn [filter List.length]; now rewrite Hh|].
    split.
    + intros [Hin|[Hin|[Hin|Hin]]]; try discriminate. now apply Hn.
    + rewrite Hs'. f_equal. lia.
Qed.

(** X12. With a process that stays alive and a positive period [p], the loop
    re-optimizes every lcm(30, p) seconds, not every [p] seconds: from a
    counter of zero it ticks lcm(30, p) / 30 times, each tick a heartbeat and
    none a selection, and only then, with the counter at lcm(30, p), is a
    re-optimization due. A period of 45 is served every 90 seconds, a period
    of 7 every 210. *)
Theorem reoptimization_every_lcm env config minerID st w :
  (forall h p, PidExists env h p = true) ->
  (0 < OptimizationCheckTime config)%Z ->
  (Z.lcm 30 (OptimizationCheckTime config) < 2 ^ 63)%Z ->
  secondsSlept st = 0%Z ->
  let n := Z.to_nat (Z.lcm 30 (OptimizationCheckTime config) / 30) in
  exists w' st' h,
    run_loop n env config minerID st w = (w', Ret st') /\
    trace w' = trace w ++ h /\
    heartbeats h = n /\ ~ In ESelect h /\
    secondsSlept st' = Z.lcm 30 (OptimizationCheckTime config) /\
    optimization_due config st' = Ret true.
Proof.
  intros Halive Hp Hb Hs n.
  pose proof (lcm_30_pos _ Hp) as Hl.
  destruct (Z.divide_lcm_l 30 (OptimizationCheckTime config)) as [q Hq].
  assert (Z.lcm 30 (OptimizationCheckTime config) / 30 = q)%Z as Hdiv
    by (rewrite Hq; apply Z.div_mul; lia).
  assert (30 * Z.of_nat n = Z.lcm 30 (OptimizationCheckTime config))%Z as Hn.
  { subst n. rewrite Hdiv, Z2Nat.id by lia. lia. }
  destruct (alive_ticks_below_lcm env config minerID Halive Hp Hb n 0 st w)
    as (w' & st' & h & Hrun & Ht & Hh & Hno & Hs'); [rewrite Hs; reflexivity | cbn [Nat.add]; lia |].
  cbn [Nat.add] in Hs'. rewrite Hn in Hs'.
  exists w', st', h. repeat split; try assumption.
  now apply due_at_lcm.
Qed.

Lemma reoptimization_every_lcm_witness :
  exists w' st' h,
    run_loop 3 Sample.steady Sample2.config_45 1 Sample.launched Sample.world =
      (w', Ret st') /\
    trace w' = trace Sample.world ++ h /\
    heartbeats h = 3%nat /\ ~ In ESelect h /\
    secondsSlept st' = 90%Z /\
    optimization_due Sample2.config_45 st' = Ret true.
Proof.
  apply (reoptimization_every_lcm Sample.steady Sample2.config_45 1 Sample.launched
           Sample.world).
  - intros h p. reflexivity.
  - reflexivity.
  - reflexivity.
  - reflexivity.
Defined.

(** ** What the selector can return *)

Lemma group_by_In (A : Type) (same : A -> A -> bool) (l : list A) (x : A) :
  In x (Selector.group_by same l) -> In x l.
Proof.
  induction l as [|y r IH]; cbn [Selector.group_by]; [intros []|].
  intros [->|Hin]; [now left|].
  apply filter_In in Hin. right. now apply IH.
Qed.

Lemma subLatestStat_sample db minerID ls :
  In ls (Selector.subLatestStat db minerID) ->
  exists s,
    In s (miner_stats db) /\ stat_miner_id s = minerID /\
    Selector.ls_miner_id ls = minerID /\
    stat_miner_software_id s = Selector.ls_miner_software_id ls /\
    stat_algorithm_id s = Selector.ls_algorithm_id ls.
Proof.
  unfold Selector.subLatestStat. intros H.
  apply in_map_iff in H. destruct H as (g & <- & Hg).
  apply group_by_In, filter_In in Hg. destruct Hg as (Hg & Eg).
  apply N.eqb_eq in Eg. exists g. cbn. auto.
Qed.

Lemma subLatestPoolStat_snapshot db lps :
  In lps (Selector.subLatestPoolStat db) ->
  exists ps, In ps (pool_stats db) /\ pstat_pool_id ps = Selector.lps_pool_id lps.
Proof.
  unfold Selector.subLatestPoolStat. intros H.
  apply in_map_iff in H. destruct H as (g & <- & Hg).
  apply group_by_In in Hg. exists g. cbn. auto.
Qed.

(** What stands behind a row of the join. *)
Lemma joined_rows_support db minerID r :
  In r (Selector.joined_rows db minerID) ->
  let c := Selector.combination r in
  (exists m, In m (miners db) /\ miner_ID m = minerID) /\
  (exists s, In s (miner_stats db) /\ stat_miner_id s = minerID /\
             stat_miner_software_id s = msa_MinerSoftwareID c /\
             stat_algorithm_id s = msa_AlgorithmID c) /\
  (exists sw, In sw (miner_softwares db) /\ soft_ID sw = msa_MinerSoftwareID c) /\
  (exists al, In al (algorithms db) /\ algo_ID al = msa_AlgorithmID c) /\
  (exists p ps, In p (pools db) /\ pool_algorithm_id p = msa_AlgorithmID c /\
                In ps (pool_stats db) /\ pstat_pool_id ps = pool_id p).
Proof.
  unfold Selector.joined_rows. intros H.
  apply in_flat_map in H. destruct H as (m & Hm & H).
  apply in_flat_map in H. destruct H as (ls & Hls & H).
  apply filter_In in Hls. destruct Hls as (Hls & _).
  apply in_flat_map in H. destruct H as (st & _ & H).
  apply in_flat_map in H. destruct H as (sw & Hsw & H).
  apply filter_In in Hsw. destruct Hsw as (Hsw & Esw). apply N.eqb_eq in Esw.
  apply in_flat_map in H. destruct H as (al & Hal & H).
  apply filter_In in Hal. destruct Hal as (Hal & Eal). apply N.eqb_eq in Eal.
  apply in_flat_map in H. destruct H as (c & Hc & H).
  apply filter_In in Hc. destruct Hc as (Hc & Ec).
  apply andb_true_iff in Ec. destruct Ec as (Eca & Ecs).
  apply N.eqb_eq in Eca. apply N.eqb_eq in Ecs.
  apply in_flat_map in H. destruct H as (p & Hp & H).
  apply filter_In in Hp. destruct Hp as (Hp & Ep). apply N.eqb_eq in Ep.
  apply in_flat_map in H. destruct H as (lps & Hlps & H).
  apply filter_In in Hlps. destruct Hlps as (Hlps & Elps). apply N.eqb_eq in Elps.
  do 3 (apply in_flat_map in H; destruct H as (? & _ & H)).
  destruct ((miner_ID m =? minerID)%N && Selector.eligible c) eqn:Ew; [|destruct H].
  destruct H as [<-|[]]. cbn [Selector.combination].
  apply andb_true_iff in Ew. destruct Ew as (Em & _). apply N.eqb_eq in Em.
  apply subLatestStat_sample in Hls.
  destruct Hls as (s & Hs & Hsm & _ & Hss & Hsa).
  apply subLatestPoolStat_snapshot in Hlps. destruct Hlps as (ps & Hps & Hpp).
  split; [now exists m|].
  split; [exists s; repeat split; congruence|].
  split; [exists sw; split; congruence|].
  split; [exists al; split; congruence|].
  exists p, ps. repeat split; congruence.
Qed.

Lemma getBestSoftwareAlgo_row db minerID useEstimates c :
  Selector.getBestSoftwareAlgo db minerID useEstimates = Ret c ->
  exists r, In r (Selector.joined_rows db minerID) /\ Selector.combination r = c.
Proof.
  intros H.
  destruct (Selector.joined_rows db minerID) eqn:Hrows.
  - rewrite getBestSoftwareAlgo_empty in H by assumption. discriminate.
  - assert (Selector.joined_rows db minerID <> []) as Hne by (rewrite Hrows; discriminate).
    destruct (getBestSoftwareAlgo_nonempty db minerID useEstimates Hne)
      as (r & Hin & _ & Hres).
    rewrite Hres in H. destruct (MinerSoftwareAlgos_eq_dec _ _); [discriminate|].
    injection H as <-. exists r. rewrite <- Hrows. now split.
Qed.

(** X13. The selector never returns a combination it has no ground for: a
    returned combination is a row of the combinations table, the miner is in
    the miners table and has at least one sample for that software and
    algorithm, the software and the algorithm are in the catalog, and the
    algorithm has a pool with at least one market snapshot. *)
Theorem selected_combination_is_supported db minerID useEstimates c :
  Selector.getBestSoftwareAlgo db minerID useEstimates = Ret c ->
  In c (miner_software_algos db) /\
  (exists m, In m (miners db) /\ miner_ID m = minerID) /\
  (exists s, In s (miner_stats db) /\ stat_miner_id s = minerID /\
             stat_miner_software_id s = msa_MinerSoftwareID c /\
             stat_algorithm_id s = msa_AlgorithmID c) /\
  (exists sw, In sw (miner_softwares db) /\ soft_ID sw = msa_MinerSoftwareID c) /\
  (exists al, In al (algorithms db) /\ algo_ID al = msa_AlgorithmID c) /\
  (exists p ps, In p (pools db) /\ pool_algorithm_id p = msa_AlgorithmID c /\
                In ps (pool_stats db) /\ pstat_pool_id ps = pool_id p).
Proof.
  intros H. apply getBestSoftwareAlgo_row in H. destruct H as (r & Hr & <-).
  split; [exact (joined_rows_combination db minerID r Hr)|].
  exact (joined_rows_support db minerID r Hr).
Qed.

Lemma selected_combination_is_supported_witness :
  In Sample.A (miner_software_algos Sample.db) /\
  exists s, In s (miner_stats Sample.db) /\ stat_miner_id s = 1%N /\
            stat_miner_software_id s = 1%N /\ stat_algorithm_id s = 1%N.
Proof.
  destruct (selected_combination_is_supported Sample.db 1 1 Sample.A eq_refl)
    as (Hc & _ & Hs & _).
  split; [exact Hc | exact Hs].
Defined.

(** ** Marking a combination "do not use" *)

Lemma flat_map_nil (A B : Type) (f : A -> list B) (l : list A) :
  (forall a, f a = []) -> flat_map f l = [].
Proof.
  intros H. induction l as [|x r IH]; cbn [flat_map]; [reflexivity|].
  now rewrite H, IH.
Qed.

Lemma flat_map_filter_guard (A B : Type) (F : A -> list B) (P E : A -> bool)
    (l : list A) :
  (forall a, E a = false -> F a = []) ->
  flat_map F (filter P (filter E l)) = flat_map F (filter P l).
Proof.
  intros H. induction l as [|x r IH]; cbn [filter]; [reflexivity|].
  destruct (E x) eqn:Ex; cbn [filter]; destruct (P x); cbn [flat_map];
    rewrite ?IH; try reflexivity.
  now rewrite (H x Ex).
Qed.

Lemma joined_rows_without_ineligible db minerID :
  Selector.joined_rows (without_ineligible db) minerID = Selector.joined_rows db minerID.
Proof.
  unfold Selector.joined_rows, without_ineligible,
    Selector.subLatestStat, Selector.subAvgWork, Selector.subLatestPoolStat.
  cbn [miners algorithms miner_softwares miner_miner_softwares miner_software_algos
       miner_stats pools pool_stats coin_prices].
  do 5 (apply flat_map_ext; intros ?).
  apply flat_map_filter_guard. intros c Hc.
  do 5 (apply flat_map_nil; intros ?).
  now rewrite Hc, andb_false_r.
Qed.

(** X14. For the selector a combination marked "do not use" is as good as
    deleted: on the tables with every such combination removed it returns
    what it returns on the tables as they are, in either mode. *)
Theorem do_not_use_is_deletion db minerID useEstimates :
  Selector.getBestSoftwareAlgo (without_ineligible db) minerID useEstimates =
    Selector.getBestSoftwareAlgo db minerID useEstimates.
Proof.
  unfold Selector.getBestSoftwareAlgo, Selector.query.
  now rewrite joined_rows_without_ineligible.
Qed.

(** X16. Whatever the tables hold and whichever row of the join the order
    puts first, a combination the selector returns passes the test of the
    [WHERE] clause: its "do not use" column is null or false, never true. *)
Theorem ineligible_combination_is_never_returned db minerID useEstimates c :
  Selector.getBestSoftwareAlgo db minerID useEstimates = Ret c ->
  Selector.eligible c = true /\ do_not_use c <> Some true.
Proof.
  intros H. apply getBestSoftwareAlgo_row in H. destruct H as (r & Hr & <-).
  pose proof (joined_rows_eligible db minerID r Hr) as He.
  split; [exact He|].
  unfold Selector.eligible in He. intros Hd. rewrite Hd in He. discriminate.
Qed.

Lemma ineligible_combination_is_never_returned_witness :
  Selector.getBestSoftwareAlgo Sample.db 1 1 = Ret Sample.A /\
  do_not_use Sample.A <> Some true.
Proof.
  split; [reflexivity|].
  exact (proj2 (ineligible_combination_is_never_returned Sample.db 1 1 Sample.A eq_refl)).
Defined.

(** ** The sample that anchors a triple *)

Lemma MAX_ge (l : list N) (x : N) : In x l -> (x <= Selector.MAX l)%N.
Proof.
  unfold Selector.MAX. induction l as [|y r IH]; cbn [fold_right]; [intros []|].
  intros [->|Hin]; [apply N.le_max_l|].
  etransitivity; [now apply IH | apply N.le_max_r].
Qed.

Lemma MAX_in (l : list N) : l <> [] -> In (Selector.MAX l) l.
Proof.
  unfold Selector.MAX. induction l as [|y r IH]; [contradiction|]. intros _.
  cbn [fold_right]. destruct r as [|z r'].
  - cbn [fold_right]. left. symmetry. apply N.max_l. apply N.le_0_l.
  - destruct (N.max_spec y (fold_right N.max 0%N (z :: r'))) as [(_ & ->)|(_ & ->)].
    + right. apply IH. discriminate.
    + now left.
Qed.

Lemma same_triple_refl s : Selector.same_triple s s = true.
Proof. unfold Selector.same_triple. now rewrite !N.eqb_refl. Qed.

Lemma same_triple_eq a b :
  Selector.same_triple a b = true <->
  stat_miner_id a = stat_miner_id b /\
  stat_miner_software_id a = stat_miner_software_id b /\
  stat_algorithm_id a = stat_algorithm_id b.
Proof.
  unfold Selector.same_triple. rewrite !andb_true_iff, !N.eqb_eq. tauto.
Qed.

(** X15. For each software and algorithm the miner has samples of, the
    selector anchors on the sample of greatest identifier: the identifier in
    a row of the latest-sample subquery is the identifier of one of the
    miner's samples of that software and algorithm, and no sample of the
    miner for them has a greater one. *)
Theorem latest_sample_is_greatest db minerID ls :
  In ls (Selector.subLatestStat db minerID) ->
  Selector.ls_miner_id ls = minerID /\
  (exists s, In s (miner_stats db) /\ stat_miner_id s = minerID /\
             stat_miner_software_id s = Selector.ls_miner_software_id ls /\
             stat_algorithm_id s = Selector.ls_algorithm_id ls /\
             stat_id s = Selector.latest_stat_id ls) /\
  (forall s, In s (miner_stats db) -> stat_miner_id s = minerID ->
             stat_miner_software_id s = Selector.ls_miner_software_id ls ->
             stat_algorithm_id s = Selector.ls_algorithm_id ls ->
             (stat_id s <= Selector.latest_stat_id ls)%N).
Proof.
  unfold Selector.subLatestStat. intros H.
  apply in_map_iff in H. destruct H as (g & <- & Hg).
  apply group_by_In in Hg. pose proof Hg as Hg'.
  apply filter_In in Hg'. destruct Hg' as (Hgs & Eg). apply N.eqb_eq in Eg.
  cbn [Selector.ls_miner_id Selector.ls_miner_software_id Selector.ls_algorithm_id
       Selector.latest_stat_id].
  set (t := filter (fun s => (stat_miner_id s =? minerID)%N) (miner_stats db)) in *.
  set (grp := filter (Selector.same_triple g) t).
  assert (In g grp) as Hgin
    by (apply filter_In; split; [exact Hg | apply same_triple_refl]).
  split; [exact Eg|]. split.
  - assert (In (Selector.MAX (map stat_id grp)) (map stat_id grp)) as Hmax.
    { apply MAX_in. intros Hnil. apply (in_map stat_id) in Hgin.
      rewrite Hnil in Hgin. destruct Hgin. }
    apply in_map_iff in Hmax. destruct Hmax as (s & Hid & Hs).
    apply filter_In in Hs. destruct Hs as (Hst & Es).
    apply same_triple_eq in Es. destruct Es as (E1 & E2 & E3).
    apply filter_In in Hst. destruct Hst as (Hst & Em). apply N.eqb_eq in Em.
    exists s. repeat split; congruence.
  - intros s Hs Hm Hsw Hal. apply MAX_ge. apply in_map.
    apply filter_In. split.
    + apply filter_In. split; [exact Hs | now apply N.eqb_eq].
    + apply same_triple_eq. repeat split; congruence.
Qed.

Lemma latest_sample_is_greatest_witness :
  exists s, In s (miner_stats Sample.db) /\ stat_id s = 3%N.
Proof.
  destruct (latest_sample_is_greatest Sample.db 1
              (Selector.mkLatestStat 1 1 1 3)) as (_ & (s & Hs & _ & _ & _ & Hid) & _).
  - left. reflexivity.
  - exists s. split; [exact Hs | exact Hid].
Defined.
